(** * Traffic analysis (tracking4.py): a shallow embedding and its properties

    The development follows [analyze_traffic_comprehensive] of
    [src/tracking4.py]: the per-vehicle update (speed, hard braking, line
    crossing), the pairwise distance scan, the platoon sample, and the final
    summary.  Python floats are IEEE 754 binary64 values, modelled by Rocq's
    primitive floats; Python integers are [Z]; dictionaries and sets are
    stdpp's [gmap] and [gset]; lists that are only appended to are [list]s in
    append order. *)

From Stdlib Require Import ZArith Uint63.
From Stdlib Require Import Floats.PrimFloat Floats.FloatOps Floats.SpecFloat.
From Stdlib Require Import Floats.FloatAxioms.
From stdpp Require Import gmap strings list fin_maps.

Set Warnings "-inexact-float,-clear-no-such-hyp".
Local Open Scope Z_scope.

(** ** Python float arithmetic *)

Module PyFloat.

(** [float(n)] for a Python integer: the nearest binary64 value, ties to
    even.  (CPython raises OverflowError above the largest double; the
    model yields an infinity there.) *)
Definition of_int (n : Z) : float :=
  SF2Prim (binary_normalize 53 1024 n 0 false).

(** [a > b] and [a < b] on floats. *)
Definition gt (a b : float) : bool := PrimFloat.ltb b a.
Definition lt (a b : float) : bool := PrimFloat.ltb a b.

(** The builtin [sum] on a list of floats: start at 0, add left to right
    (CPython before 3.12; later versions compensate the rounding errors of
    the partial sums, and agree with this whenever those sums are exact). *)
Definition sum (l : list float) : float :=
  fold_left PrimFloat.add l PrimFloat.zero.

(** [a / b] nearest integer, ties to even, for [0 <= a] and [0 < b]. *)
Definition div_half_even (a b : Z) : Z :=
  let q := a / b in
  let r := a mod b in
  if 2 * r <? b then q
  else if b <? 2 * r then q + 1
  else if Z.even q then q else q + 1.

(** The integer [round_half_even (|x| * 100)] of a finite nonzero float
    with mantissa [m] and exponent [e]. *)
Definition hundredths (m : positive) (e : Z) : Z :=
  if 0 <=? e then Z.pos m * 2 ^ e * 100
  else div_half_even (Z.pos m * 100) (2 ^ (- e)).

(** [round(x, 2)]: CPython prints [x] correctly rounded to two decimals
    and parses the string back, so the result is the double nearest to
    [hundredths / 100]; nan, infinities and zeros round to themselves. *)
Definition round2 (x : float) : float :=
  match Prim2SF x with
  | S754_finite s m e =>
      match hundredths m e with
      | Z.pos n =>
          SF2Prim (SFdiv 53 1024 (S754_finite s n 0) (S754_finite false 100 0))
      | _ => SF2Prim (S754_zero s)
      end
  | _ => x
  end.

(** [a / b], which raises ZeroDivisionError for a zero divisor. *)
Definition truediv (a b : float) : option float :=
  if PrimFloat.eqb b PrimFloat.zero then None else Some (PrimFloat.div a b).

End PyFloat.

(** ** Data model *)

(** The keyword arguments of [analyze_traffic_comprehensive], together with
    the two values the function reads from its collaborators before the
    loop: [fps] (from the capture) and [class_list] (the model's names).
    The numeric arguments are taken as floats.  The drawing options
    ([save_video], [output_video_path]) only paint on the frame and are
    left out. *)
Record Config := {
  pixel_to_meter : float;
  tailgating_thresh : float;
  braking_thresh : float;
  platoon_dist : float;
  line_y_red : Z;
  line_y_blue : Z;
  fps : float;
  class_list : Z → string
}.

(** One row of the tracker's output for a frame: the box after
    [map(int, box)], the track id and the class index. *)
Record Detection := {
  box : Z * Z * Z * Z;
  track_id : Z;
  class_idx : Z
}.

(** An entry of [vehicle_positions]. *)
Record VehiclePos := {
  vp_id : Z;
  vp_cx : Z;
  vp_cy : Z;
  vp_speed : float;
  vp_class : string
}.

(** An entry of [distance_records]. *)
Record DistanceRecord := {
  dr_frame : Z;
  dr_id1 : Z;
  dr_id2 : Z;
  dr_speed1 : float;
  dr_speed2 : float;
  dr_distance : float
}.

(** An entry of a frame's [frame_objects]: a vehicle, or a tailgating
    pair flagged in that frame. *)
Inductive FrameObject :=
| VehicleObject (id : Z) (cls : string) (bbox : Z * Z * Z * Z)
    (center : Z * Z) (speed : float) (braking : bool)
| TailgatingObject (pair : Z * Z) (distance : float).

Record FrameData := {
  fd_frame : Z;
  fd_objects : list FrameObject
}.

(** The variables that live across frames. *)
Record State := {
  prev_positions : gmap Z (Z * Z);
  prev_speeds : gmap Z float;
  vehicles_seen : gmap Z string;
  braking_flagged : gset Z;
  tailgating_flagged : gset (Z * Z);
  platoon_speeds : list float;
  counted_ids_red_to_blue : gset Z;
  counted_ids_blue_to_red : gset Z;
  count_red_to_blue : gmap string Z;
  count_blue_to_red : gmap string Z;
  crossed_red_first : gmap Z bool;
  crossed_blue_first : gmap Z bool;
  distance_records : list DistanceRecord;
  frame_data : list FrameData;
  frame_no : Z
}.

Definition init_state : State := {|
  prev_positions := ∅;
  prev_speeds := ∅;
  vehicles_seen := ∅;
  braking_flagged := ∅;
  tailgating_flagged := ∅;
  platoon_speeds := [];
  counted_ids_red_to_blue := ∅;
  counted_ids_blue_to_red := ∅;
  count_red_to_blue := ∅;
  count_blue_to_red := ∅;
  crossed_red_first := ∅;
  crossed_blue_first := ∅;
  distance_records := [];
  frame_data := [];
  frame_no := 0
|}.

(** ** The per-vehicle step (the body of the [zip] loop) *)

(** [k in d] for a dictionary. *)
Definition in_dict {V} (k : Z) (d : gmap Z V) : bool :=
  match d !! k with Some _ => true | None => false end.

(** [line - w <= cy <= line + w]. *)
Definition in_band (line w cy : Z) : bool :=
  (line - w <=? cy) && (cy <=? line + w).

(** [d[k] += 1] on a [defaultdict(int)]. *)
Definition incr (k : string) (d : gmap string Z) : gmap string Z :=
  <[k := default 0 (d !! k) + 1]> d.

(** [math.sqrt(dx**2 + dy**2)] for integer [dx], [dy]. *)
Definition dist_px (dx dy : Z) : float :=
  PrimFloat.sqrt (PyFloat.of_int (dx ^ 2 + dy ^ 2)).

Definition center (b : Z * Z * Z * Z) : Z * Z :=
  let '(x1, y1, x2, y2) := b in ((x1 + x2) / 2, (y1 + y2) / 2).

(** Speed calculation, from the stored previous center if there is one. *)
Definition speed_kmh_of (cfg : Config) (prev : option (Z * Z)) (c : Z * Z)
  : float :=
  match prev with
  | Some (px, py) =>
      let dist_m := PrimFloat.mul (dist_px (c.1 - px) (c.2 - py))
                      (pixel_to_meter cfg) in
      let speed_mps := PrimFloat.mul dist_m (fps cfg) in
      PrimFloat.mul speed_mps 3.6%float
  | None => PrimFloat.zero
  end.

(** [speed_kmh] of a detection processed in state [st]. *)
Definition speed_at (cfg : Config) (st : State) (d : Detection) : float :=
  speed_kmh_of cfg (prev_positions st !! track_id d) (center (box d)).

(** [speed_drop > braking_thresh], when a previous speed is stored. *)
Definition speed_drops (cfg : Config) (st : State) (d : Detection) : bool :=
  match prev_speeds st !! track_id d with
  | Some ps =>
      PyFloat.gt (PrimFloat.sub ps (speed_at cfg st d)) (braking_thresh cfg)
  | None => false
  end.

(** Hard braking detection: the value of [braking_flag]. *)
Definition braking_at (cfg : Config) (st : State) (d : Detection) : bool :=
  speed_drops cfg st d
  && negb (bool_decide (track_id d ∈ braking_flagged st)).

(** Registering a touch of a line ([crossed_*_first]). *)
Definition touch (line cy id : Z) (crossed : gmap Z bool) : gmap Z bool :=
  if in_band line 3 cy
  then if in_dict id crossed then crossed else <[id := true]> crossed
  else crossed.

(** The test guarding a directed count; [crossed] is the dictionary after
    the touch of this detection is registered. *)
Definition counts_now (crossed : gmap Z bool) (counted : gset Z)
    (line cy id : Z) : bool :=
  in_dict id crossed && negb (bool_decide (id ∈ counted))
  && in_band line 5 cy.

(** The effect of one detection on the variables that live across
    frames. *)
Definition vehicle_step (cfg : Config) (st : State) (d : Detection) : State :=
  let c := center (box d) in
  let cy := c.2 in
  let id := track_id d in
  let class_name := class_list cfg (class_idx d) in
  let speed_kmh := speed_at cfg st d in
  let braking_flag := braking_at cfg st d in
  let red := touch (line_y_red cfg) cy id (crossed_red_first st) in
  let blue := touch (line_y_blue cfg) cy id (crossed_blue_first st) in
  let down :=
    counts_now red (counted_ids_red_to_blue st) (line_y_blue cfg) cy id in
  let up :=
    counts_now blue (counted_ids_blue_to_red st) (line_y_red cfg) cy id in
  {| prev_positions := <[id := c]> (prev_positions st);
     prev_speeds := <[id := speed_kmh]> (prev_speeds st);
     vehicles_seen := <[id := class_name]> (vehicles_seen st);
     braking_flagged :=
       if braking_flag then {[id]} ∪ braking_flagged st
       else braking_flagged st;
     tailgating_flagged := tailgating_flagged st;
     platoon_speeds := platoon_speeds st;
     counted_ids_red_to_blue :=
       if down then {[id]} ∪ counted_ids_red_to_blue st
       else counted_ids_red_to_blue st;
     counted_ids_blue_to_red :=
       if up then {[id]} ∪ counted_ids_blue_to_red st
       else counted_ids_blue_to_red st;
     count_red_to_blue :=
       if down then incr class_name (count_red_to_blue st)
       else count_red_to_blue st;
     count_blue_to_red :=
       if up then incr class_name (count_blue_to_red st)
       else count_blue_to_red st;
     crossed_red_first := red;
     crossed_blue_first := blue;
     distance_records := distance_records st;
     frame_data := frame_data st;
     frame_no := frame_no st |}.

(** The entry appended to [vehicle_positions]. *)
Definition vehicle_pos (cfg : Config) (st : State) (d : Detection)
  : VehiclePos :=
  {| vp_id := track_id d;
     vp_cx := (center (box d)).1;
     vp_cy := (center (box d)).2;
     vp_speed := speed_at cfg st d;
     vp_class := class_list cfg (class_idx d) |}.

(** The entry appended to [frame_objects]. *)
Definition vehicle_object (cfg : Config) (st : State) (d : Detection)
  : FrameObject :=
  VehicleObject (track_id d) (class_list cfg (class_idx d)) (box d)
    (center (box d)) (PyFloat.round2 (speed_at cfg st d))
    (braking_at cfg st d).

(** The body of the [zip] loop, on the state and the two lists of the
    current frame. *)
Definition process_vehicle (cfg : Config)
    (acc : State * list FrameObject * list VehiclePos) (d : Detection)
  : State * list FrameObject * list VehiclePos :=
  let '(st, frame_objects, vehicle_positions) := acc in
  (vehicle_step cfg st d,
   frame_objects ++ [vehicle_object cfg st d],
   vehicle_positions ++ [vehicle_pos cfg st d]).

(** ** The pairwise scan (tailgating and distance analysis) *)

(** The index pairs [(i, j)], [i < j], of the two nested [range] loops, in
    the order the loops visit them. *)
Fixpoint pairs {A} (l : list A) : list (A * A) :=
  match l with
  | [] => []
  | x :: r => map (pair x) r ++ pairs r
  end.

(** [tuple(sorted([id1, id2]))]. *)
Definition sorted_pair (id1 id2 : Z) : Z * Z := (Z.min id1 id2, Z.max id1 id2).

(** [dist_m] of the inner loop. *)
Definition pair_dist_m (cfg : Config) (a b : VehiclePos) : float :=
  PrimFloat.mul (dist_px (vp_cx a - vp_cx b) (vp_cy a - vp_cy b))
    (pixel_to_meter cfg).

Definition distance_record (frame : Z) (cfg : Config) (a b : VehiclePos)
  : DistanceRecord :=
  {| dr_frame := frame;
     dr_id1 := vp_id a;
     dr_id2 := vp_id b;
     dr_speed1 := PyFloat.round2 (vp_speed a);
     dr_speed2 := PyFloat.round2 (vp_speed b);
     dr_distance := PyFloat.round2 (pair_dist_m cfg a b) |}.

(** The test guarding a tailgating flag. *)
Definition tailgating_now (cfg : Config) (flagged : gset (Z * Z))
    (a b : VehiclePos) : bool :=
  PyFloat.lt (pair_dist_m cfg a b) (tailgating_thresh cfg)
  && negb (bool_decide (sorted_pair (vp_id a) (vp_id b) ∈ flagged)).

Definition set_proximity (st : State) (recs : list DistanceRecord)
    (flagged : gset (Z * Z)) : State :=
  {| prev_positions := prev_positions st;
     prev_speeds := prev_speeds st;
     vehicles_seen := vehicles_seen st;
     braking_flagged := braking_flagged st;
     tailgating_flagged := flagged;
     platoon_speeds := platoon_speeds st;
     counted_ids_red_to_blue := counted_ids_red_to_blue st;
     counted_ids_blue_to_red := counted_ids_blue_to_red st;
     count_red_to_blue := count_red_to_blue st;
     count_blue_to_red := count_blue_to_red st;
     crossed_red_first := crossed_red_first st;
     crossed_blue_first := crossed_blue_first st;
     distance_records := recs;
     frame_data := frame_data st;
     frame_no := frame_no st |}.

(** The body of the inner loop. *)
Definition process_pair (cfg : Config) (acc : State * list FrameObject)
    (p : VehiclePos * VehiclePos) : State * list FrameObject :=
  let '(st, frame_objects) := acc in
  let '(a, b) := p in
  let flag := tailgating_now cfg (tailgating_flagged st) a b in
  let pair := sorted_pair (vp_id a) (vp_id b) in
  (set_proximity st
     (distance_records st ++ [distance_record (frame_no st) cfg a b])
     (if flag then {[pair]} ∪ tailgating_flagged st
      else tailgating_flagged st),
   if flag
   then frame_objects ++
          [TailgatingObject pair (PyFloat.round2 (pair_dist_m cfg a b))]
   else frame_objects).

(** ** Platoon detection *)

(** The sample appended when at least three vehicles are visible.  The
    divisor is [len(vehicle_positions) >= 3], so the division cannot
    raise. *)
Definition platoon_sample (vehicle_positions : list VehiclePos)
  : option float :=
  if 3 <=? Z.of_nat (length vehicle_positions)
  then Some (PrimFloat.div (PyFloat.sum (map vp_speed vehicle_positions))
               (PyFloat.of_int (Z.of_nat (length vehicle_positions))))
  else None.

Definition set_frame (st : State) (ps : list float) (fd : list FrameData)
    (n : Z) : State :=
  {| prev_positions := prev_positions st;
     prev_speeds := prev_speeds st;
     vehicles_seen := vehicles_seen st;
     braking_flagged := braking_flagged st;
     tailgating_flagged := tailgating_flagged st;
     platoon_speeds := ps;
     counted_ids_red_to_blue := counted_ids_red_to_blue st;
     counted_ids_blue_to_red := counted_ids_blue_to_red st;
     count_red_to_blue := count_red_to_blue st;
     count_blue_to_red := count_blue_to_red st;
     crossed_red_first := crossed_red_first st;
     crossed_blue_first := crossed_blue_first st;
     distance_records := distance_records st;
     frame_data := fd;
     frame_no := n |}.

(** ** One frame, and the whole run *)

(** A frame is the list of the tracker's rows for it (the [zip] of boxes,
    track ids and class indices); the tracker is taken to deliver box data
    and an id for every row. *)
Definition Frame := list Detection.

(** [frame_no += 1]. *)
Definition begin_frame (st : State) : State :=
  set_frame st (platoon_speeds st) (frame_data st) (frame_no st + 1).

(** The per-vehicle loop of a frame. *)
Definition vehicles_pass (cfg : Config) (st : State) (f : Frame)
  : State * list FrameObject * list VehiclePos :=
  fold_left (process_vehicle cfg) f (st, [], []).

(** The body of the [while] loop. *)
Definition process_frame (cfg : Config) (st : State) (f : Frame) : State :=
  let '(st1, objs1, vehicle_positions) :=
    vehicles_pass cfg (begin_frame st) f in
  let '(st2, objs2) :=
    fold_left (process_pair cfg) (pairs vehicle_positions) (st1, objs1) in
  let ps :=
    match platoon_sample vehicle_positions with
    | Some s => platoon_speeds st2 ++ [s]
    | None => platoon_speeds st2
    end in
  set_frame st2 ps
    (frame_data st2 ++ [{| fd_frame := frame_no st2; fd_objects := objs2 |}])
    (frame_no st2).

(** The loop over the frames the capture delivers. *)
Definition run (cfg : Config) (frames : list Frame) : State :=
  fold_left (process_frame cfg) frames init_state.

(** ** The summary *)

Record Summary := {
  total_frames : Z;
  summary_fps : float;
  duration_seconds : float;
  unique_vehicles : gmap string Z;
  downward : gmap string Z;
  upward : gmap string Z;
  total_downward : Z;
  total_upward : Z;
  hard_braking_count : Z;
  hard_braking_ids : list Z;
  tailgating_count : Z;
  tailgating_pairs : list (Z * Z);
  avg_platoon_speed_kmh : float;
  platoon_frames : Z;
  total_distance_records : Z;
  close_proximity_count : Z
}.

(** [sum(d.values())] for a dictionary of integers. *)
Definition sum_values (d : gmap string Z) : Z :=
  map_fold (λ _ v acc, v + acc) 0 d.

(** The class histogram with its extra [total_unique_vehicles] key. *)
Definition vehicle_counts (seen : gmap Z string) : gmap string Z :=
  <["total_unique_vehicles" := Z.of_nat (size seen)]>
    (map_fold (λ _ cls acc, incr cls acc) ∅ seen).

(** The average platoon speed: rounded mean, or 0 (the integer, shown here
    as the float zero) for no sample. *)
Definition avg_platoon (ps : list float) : float :=
  match ps with
  | [] => PrimFloat.zero
  | _ => PyFloat.round2
           (PrimFloat.div (PyFloat.sum ps)
              (PyFloat.of_int (Z.of_nat (length ps))))
  end.

(** Building the summary; [None] stands for the ZeroDivisionError of
    [frame_no / fps] when [fps] is zero. *)
Definition build_summary (cfg : Config) (st : State) : option Summary :=
  match PyFloat.truediv (PyFloat.of_int (frame_no st)) (fps cfg) with
  | None => None
  | Some duration =>
      Some {|
        total_frames := frame_no st;
        summary_fps := fps cfg;
        duration_seconds := PyFloat.round2 duration;
        unique_vehicles := vehicle_counts (vehicles_seen st);
        downward := count_red_to_blue st;
        upward := count_blue_to_red st;
        total_downward := sum_values (count_red_to_blue st);
        total_upward := sum_values (count_blue_to_red st);
        hard_braking_count := Z.of_nat (size (braking_flagged st));
        hard_braking_ids := elements (braking_flagged st);
        tailgating_count := Z.of_nat (size (tailgating_flagged st));
        tailgating_pairs := elements (tailgating_flagged st);
        avg_platoon_speed_kmh := avg_platoon (platoon_speeds st);
        platoon_frames := Z.of_nat (length (platoon_speeds st));
        total_distance_records := Z.of_nat (length (distance_records st));
        close_proximity_count :=
          Z.of_nat (length (filter
            (λ d, PyFloat.lt (dr_distance d) (tailgating_thresh cfg) = true)
            (distance_records st)))
      |}
  end.

Definition analyze_traffic_comprehensive (cfg : Config)
    (frames : list Frame) : option Summary :=
  build_summary cfg (run cfg frames).

(** ** Views of a run used to state the properties *)

(** The variables written by the per-vehicle loop only. *)
Definition vehicle_part (st : State) : State :=
  {| prev_positions := prev_positions st;
     prev_speeds := prev_speeds st;
     vehicles_seen := vehicles_seen st;
     braking_flagged := braking_flagged st;
     tailgating_flagged := ∅;
     platoon_speeds := [];
     counted_ids_red_to_blue := counted_ids_red_to_blue st;
     counted_ids_blue_to_red := counted_ids_blue_to_red st;
     count_red_to_blue := count_red_to_blue st;
     count_blue_to_red := count_blue_to_red st;
     crossed_red_first := crossed_red_first st;
     crossed_blue_first := crossed_blue_first st;
     distance_records := [];
     frame_data := [];
     frame_no := 0 |}.

(** The per-vehicle variables after the detections [h], taken in the order
    the run meets them (frame after frame, row after row).  Lemma
    [run_track] below shows that a run over [frames] leaves these variables
    as [track cfg (concat frames)] does. *)
Definition track (cfg : Config) (h : list Detection) : State :=
  fold_left (vehicle_step cfg) h init_state.

(** The state in which the run, having completed [frames], processes the
    detection that follows the rows [pre] of the next frame. *)
Definition state_at (cfg : Config) (frames : list Frame)
    (pre : list Detection) : State :=
  (vehicles_pass cfg (begin_frame (run cfg frames)) pre).1.1.

(** The last detection of [id] in a history. *)
Definition last_seen (id : Z) (h : list Detection) : option Detection :=
  last (filter (λ d, track_id d = id) h).

(** The speed formula of the specification, in the order the code
    multiplies. *)
Definition kmh (cfg : Config) (displacement_px : float) : float :=
  PrimFloat.mul
    (PrimFloat.mul (PrimFloat.mul displacement_px (pixel_to_meter cfg))
       (fps cfg))
    3.6%float.

(** The default arguments of the function, on a 10 fps video whose
    detections are all cars. *)
Definition default_config : Config :=
  {| pixel_to_meter := 0.05;
     tailgating_thresh := 10;
     braking_thresh := 8;
     platoon_dist := 15;
     line_y_red := 350;
     line_y_blue := 400;
     fps := 10;
     class_list := λ _, "car"%string |}.

(** The default arguments with a zero calibration factor and the blue line
    above the red line. *)
Definition invalid_config : Config :=
  {| pixel_to_meter := 0;
     tailgating_thresh := 10;
     braking_thresh := 8;
     platoon_dist := 15;
     line_y_red := 400;
     line_y_blue := 350;
     fps := 10;
     class_list := λ _, "car"%string |}.

(** A detection of [id] whose box has its center at [(x, y)]. *)
Definition at_point (id x y : Z) : Detection :=
  {| box := (x, y, x, y); track_id := id; class_idx := 2 |}.

(** The two counting directions, and the variables and lines of each:
    downward counting marks touches of the red line and counts at the blue
    line, upward counting the other way round. *)
Inductive Direction := Downward | Upward.

Definition crossed (dir : Direction) (st : State) : gmap Z bool :=
  match dir with
  | Downward => crossed_red_first st
  | Upward => crossed_blue_first st
  end.

Definition counted_ids (dir : Direction) (st : State) : gset Z :=
  match dir with
  | Downward => counted_ids_red_to_blue st
  | Upward => counted_ids_blue_to_red st
  end.

Definition counter (dir : Direction) (st : State) : gmap string Z :=
  match dir with
  | Downward => count_red_to_blue st
  | Upward => count_blue_to_red st
  end.

Definition touch_line (dir : Direction) (cfg : Config) : Z :=
  match dir with
  | Downward => line_y_red cfg
  | Upward => line_y_blue cfg
  end.

Definition count_line (dir : Direction) (cfg : Config) : Z :=
  match dir with
  | Downward => line_y_blue cfg
  | Upward => line_y_red cfg
  end.

(** The y coordinate of a detection's center. *)
Definition det_cy (d : Detection) : Z := (center (box d)).2.

(** The detections [h] contain one of [id] with its center within 3 pixels
    of the direction's touch line. *)
Definition touched (cfg : Config) (dir : Direction) (id : Z)
    (h : list Detection) : Prop :=
  ∃ d0, d0 ∈ h ∧ track_id d0 = id
        ∧ in_band (touch_line dir cfg) 3 (det_cy d0) = true.

(** The detection [d], coming after the detections [h], has its center
    within 5 pixels of the direction's count line, and its entity has
    touched the touch line in [h] or does so with [d]. *)
Definition qualifies (cfg : Config) (dir : Direction)
    (h : list Detection) (d : Detection) : Prop :=
  in_band (count_line dir cfg) 5 (det_cy d) = true
  ∧ touched cfg dir (track_id d) (h ++ [d]).

(** Some detection of [id] in [h] qualified when it came. *)
Definition qualified_before (cfg : Config) (dir : Direction) (id : Z)
    (h : list Detection) : Prop :=
  ∃ h1 d1 h2, h = h1 ++ d1 :: h2 ∧ track_id d1 = id
              ∧ qualifies cfg dir h1 d1.

(** The speed of a detection [d] that follows the detections [h], read off
    the history: a one-frame step from the center of the entity's last
    detection in [h], or 0 if there is none. *)
Definition speed_in (cfg : Config) (h : list Detection) (d : Detection)
  : float :=
  speed_kmh_of cfg ((λ d0, center (box d0)) <$> last_seen (track_id d) h)
    (center (box d)).

(** The detection [d], following [h], shows a speed drop above the braking
    threshold: its entity has a previous detection [d0], and the speed of
    [d0] minus the speed of [d] exceeds [braking_thresh]. *)
Definition drops (cfg : Config) (h : list Detection) (d : Detection) : Prop :=
  ∃ h1 d0 h2,
    h = h1 ++ d0 :: h2 ∧ track_id d0 = track_id d
    ∧ Forall (λ d1, track_id d1 ≠ track_id d) h2
    ∧ PyFloat.gt (PrimFloat.sub (speed_in cfg h1 d0) (speed_in cfg h d))
        (braking_thresh cfg) = true.

(** Some detection of [id] in [h] showed such a drop when it came. *)
Definition dropped_before (cfg : Config) (id : Z) (h : list Detection)
  : Prop :=
  ∃ h1 d1 h2, h = h1 ++ d1 :: h2 ∧ track_id d1 = id ∧ drops cfg h1 d1.

(** Scenario B of the specification: with this calibration a step of n
    pixels is n km/h; vehicle 7 moves at 40 km/h, then 25, then 10. *)
Definition braking_config : Config :=
  {| pixel_to_meter := 0.2777777777777778;
     tailgating_thresh := 10;
     braking_thresh := 8;
     platoon_dist := 15;
     line_y_red := 350;
     line_y_blue := 400;
     fps := 1;
     class_list := λ _, "car"%string |}.

Definition braking_run : list Frame :=
  [[at_point 7 100 0]; [at_point 7 100 40]; [at_point 7 100 65];
   [at_point 7 100 75]].

(** The [braking] fields of the vehicle entries of a frame's objects. *)
Definition braking_marks (objs : list FrameObject) : list (Z * bool) :=
  omap (λ o, match o with
             | VehicleObject id _ _ _ _ b => Some (id, b)
             | TailgatingObject _ _ => None
             end) objs.

(** The [vehicle_positions] list of the frame [f] processed in state
    [st]. *)
Definition frame_positions (cfg : Config) (st : State) (f : Frame)
  : list VehiclePos :=
  (vehicles_pass cfg (begin_frame st) f).2.

(** The entries the per-vehicle loop appends for the rows [f], starting in
    state [st]: each row's entry is computed in the state its predecessors
    leave. *)
Fixpoint positions_from (cfg : Config) (st : State) (f : list Detection)
  : list VehiclePos :=
  match f with
  | [] => []
  | d :: f' =>
      vehicle_pos cfg st d :: positions_from cfg (vehicle_step cfg st d) f'
  end.

(** The metric distance of two detections of one frame, and the test
    [dist_m < tailgating_thresh]. *)
Definition det_dist_m (cfg : Config) (a b : Detection) : float :=
  PrimFloat.mul
    (dist_px ((center (box a)).1 - (center (box b)).1)
       ((center (box a)).2 - (center (box b)).2))
    (pixel_to_meter cfg).

Definition close (cfg : Config) (a b : Detection) : bool :=
  PyFloat.lt (det_dist_m cfg a b) (tailgating_thresh cfg).

(** The sorted id pairs of the detection pairs of a frame that are closer
    than the tailgating threshold. *)
Definition close_pairs (cfg : Config) (f : Frame) : list (Z * Z) :=
  map (λ p, sorted_pair (track_id p.1) (track_id p.2))
    (filter (λ p, close cfg p.1 p.2 = true) (pairs f)).

(** The same on entries of [vehicle_positions]. *)
Definition close_positions (cfg : Config)
    (ps : list (VehiclePos * VehiclePos)) : list (Z * Z) :=
  map (λ p, sorted_pair (vp_id p.1) (vp_id p.2))
    (filter (λ p, PyFloat.lt (pair_dist_m cfg p.1 p.2)
                    (tailgating_thresh cfg) = true) ps).

(** The pairs of the tailgating entries among a frame's objects. *)
Definition tailgating_records (objs : list FrameObject) : list (Z * Z) :=
  omap (λ o, match o with
             | TailgatingObject p _ => Some p
             | VehicleObject _ _ _ _ _ _ => None
             end) objs.

(** All tailgating entries of a run, frame after frame. *)
Definition all_tailgating_records (st : State) : list (Z * Z) :=
  concat (map (λ fd, tailgating_records (fd_objects fd)) (frame_data st)).

(** An entry of [vehicle_positions] stands for a detection: same id, same
    center. *)
Definition same_place (v : VehiclePos) (d : Detection) : Prop :=
  vp_id v = track_id d ∧ (vp_cx v, vp_cy v) = center (box d).

(** [n * (n - 1) / 2], the number of unordered pairs among [n] entities. *)
Definition pair_count (n : nat) : nat := (n * (n - 1) / 2)%nat.

(** Two vehicles one pixel apart in each direction, for two frames. *)
Definition fixed_pair_run : list Frame :=
  [[at_point 1 0 0; at_point 2 1 1]; [at_point 1 0 0; at_point 2 1 1]].

(** Scenario C of the specification: vehicles 3 and 5 at 8 m (160 px), then
    at 2 m (40 px) for two frames, the last one listing them in the other
    order. *)
Definition tailgating_run : list Frame :=
  [[at_point 3 0 0; at_point 5 0 160]; [at_point 3 0 0; at_point 5 0 40];
   [at_point 5 0 40; at_point 3 0 0]].

(** A vehicle that goes from the red line to the blue line and back. *)
Definition two_way_run : list Frame :=
  [[at_point 1 200 350]; [at_point 1 200 400]; [at_point 1 200 350]].

(** A run in which vehicle 7 is seen, is absent for three frames, and comes
    back 500 px further down for two frames. *)
Definition reappearing_run : list Frame :=
  [[at_point 7 100 100]; [at_point 8 300 50]; []; [at_point 8 300 60];
   [at_point 7 100 600]; [at_point 7 100 601]].

(** ** Views of the report *)

(** The distinct track ids among the detections [h]. *)
Definition seen_ids (h : list Detection) : gset Z :=
  list_to_set (map track_id h).

(** The class name of the last detection of [id] in [h]. *)
Definition last_class (cfg : Config) (id : Z) (h : list Detection)
  : option string :=
  (λ d, class_list cfg (class_idx d)) <$> last_seen id h.

(** The ids of [h] whose last detection has class [c]. *)
Definition ids_of_class (cfg : Config) (h : list Detection) (c : string)
  : gset Z :=
  filter (λ id, last_class cfg id h = Some c) (seen_ids h).

(** The key the summary adds to the class histogram. *)
Definition total_key : string := "total_unique_vehicles".

(** One state extends another: nothing recorded is removed or lowered. *)
Definition extends (st st' : State) : Prop :=
  dom (prev_positions st) ⊆ dom (prev_positions st')
  ∧ dom (prev_speeds st) ⊆ dom (prev_speeds st')
  ∧ dom (vehicles_seen st) ⊆ dom (vehicles_seen st')
  ∧ braking_flagged st ⊆ braking_flagged st'
  ∧ tailgating_flagged st ⊆ tailgating_flagged st'
  ∧ platoon_speeds st `prefix_of` platoon_speeds st'
  ∧ counted_ids_red_to_blue st ⊆ counted_ids_red_to_blue st'
  ∧ counted_ids_blue_to_red st ⊆ counted_ids_blue_to_red st'
  ∧ (∀ c, default 0 (count_red_to_blue st !! c)
          ≤ default 0 (count_red_to_blue st' !! c))
  ∧ (∀ c, default 0 (count_blue_to_red st !! c)
          ≤ default 0 (count_blue_to_red st' !! c))
  ∧ dom (crossed_red_first st) ⊆ dom (crossed_red_first st')
  ∧ dom (crossed_blue_first st) ⊆ dom (crossed_blue_first st')
  ∧ distance_records st `prefix_of` distance_records st'
  ∧ frame_data st `prefix_of` frame_data st'
  ∧ frame_no st ≤ frame_no st'.

(** * The consumers of the report (green_time.py, cps.py, dem.py) *)

(** ** More Python arithmetic *)

(** A Python number: an integer or a float. *)
Inductive PyNum :=
| PyInt (n : Z)
| PyFlt (x : float).

(** The float a number is converted to when it meets a float. *)
Definition to_float (a : PyNum) : float :=
  match a with
  | PyInt n => PyFloat.of_int n
  | PyFlt x => x
  end.

(** [a + b] and [a * b]: exact on two integers, on floats otherwise. *)
Definition py_add (a b : PyNum) : PyNum :=
  match a, b with
  | PyInt m, PyInt n => PyInt (m + n)
  | _, _ => PyFlt (PrimFloat.add (to_float a) (to_float b))
  end.

Definition py_mul (a b : PyNum) : PyNum :=
  match a, b with
  | PyInt m, PyInt n => PyInt (m * n)
  | _, _ => PyFlt (PrimFloat.mul (to_float a) (to_float b))
  end.

(** An integer as an exact binary value. *)
Definition int_SF (n : Z) : spec_float :=
  match n with
  | Z0 => S754_zero false
  | Z.pos p => S754_finite false p 0
  | Z.neg p => S754_finite true p 0
  end.

(** [a / b] on two integers, [b] nonzero: the double nearest to the exact
    quotient.  (CPython raises OverflowError when the quotient exceeds the
    largest double; the model yields an infinity there.) *)
Definition int_truediv (a b : Z) : float :=
  SF2Prim (SFdiv 53 1024 (int_SF a) (int_SF b)).

(** [math.ceil(x)] for a finite float. *)
Definition float_ceil (x : float) : Z :=
  match Prim2SF x with
  | S754_finite s m e =>
      let n := if s then Z.neg m else Z.pos m in
      if 0 <=? e then n * 2 ^ e else - ((- n) / 2 ^ (- e))
  | _ => 0
  end.

(** [round(x)] for a finite float: the nearest integer, ties to even. *)
Definition float_round (x : float) : Z :=
  match Prim2SF x with
  | S754_finite s m e =>
      let r := if 0 <=? e then Z.pos m * 2 ^ e
               else PyFloat.div_half_even (Z.pos m) (2 ^ (- e)) in
      if s then - r else r
  | _ => 0
  end.

(** ** Queue clearance time (green_time.py) *)

Definition base_times : list float := [3.8; 3.1; 2.7; 2.2]%float.

(** [total_clear_time_and_rows]: the clearance time in whole seconds and
    the number of rows of a queue. *)
Definition total_clear_time_and_rows (queue_length lanes : Z) : Z * Z :=
  if (queue_length <=? 0) || (lanes <=? 0) then (0, 0)
  else
    let rows := float_ceil (int_truediv queue_length lanes) in
    let total_time :=
      if rows <=? 4 then PyFloat.sum (take (Z.to_nat rows) base_times)
      else PrimFloat.add (PyFloat.sum base_times)
             (PrimFloat.mul (PyFloat.of_int (rows - 4)) 2.1%float) in
    (float_round total_time, rows).

(** ** The priority score (cps.py) *)

Definition TRAFFIC_CONTRIB : float := 0.65%float.
Definition SAFETY_CONTRIB : float := 0.12%float.
Definition GREEN_WAVE_CONTRIB : float := 0.23%float.
Definition HARD_BRAKING_POINTS : Z := 2.
Definition TAILGATING_POINTS : Z := 1.
Definition MAX_ETA_SCALE : Z := 6.

Definition CLASS_WEIGHTS : gmap string PyNum :=
  list_to_map
    [("ambulance"%string, PyInt 12); ("bus"%string, PyFlt 3.5);
     ("truck"%string, PyFlt 2.5); ("car"%string, PyInt 1);
     ("bike"%string, PyFlt 0.3)].

(** The body of the loop of [calculate_traffic_score]: a class without a
    weight raises KeyError, which the bare [except] swallows. *)
Definition add_class_score (traffic_score : PyNum) (item : string * Z)
  : PyNum :=
  match CLASS_WEIGHTS !! item.1 with
  | Some w_class => py_add traffic_score (py_mul w_class (PyInt item.2))
  | None => traffic_score
  end.

(** [calculate_traffic_score], on the items of the dictionary in iteration
    order. *)
Definition calculate_traffic_score (vehicle_counts : list (string * Z))
  : float :=
  let traffic_score := fold_left add_class_score vehicle_counts (PyInt 0) in
  PrimFloat.mul (to_float traffic_score) TRAFFIC_CONTRIB.

Definition calculate_safety_penalty (hard_brakes tailgating_events : Z)
  : float :=
  let C_rate := hard_brakes * HARD_BRAKING_POINTS
                + tailgating_events * TAILGATING_POINTS in
  PrimFloat.mul (PyFloat.of_int C_rate) SAFETY_CONTRIB.

(** [max(0, x)]: [x] when [x > 0], else the integer 0 (here as a float,
    since it is multiplied by a float next). *)
Definition max_0 (x : float) : float :=
  if PyFloat.gt x PrimFloat.zero then x else PrimFloat.zero.

(** [calculate_green_wave_bonus]; [None] stands for ZeroDivisionError. *)
Definition calculate_green_wave_bonus (platoon_weight distance_m
    avg_speed_m_s : float) : option float :=
  match PyFloat.truediv distance_m avg_speed_m_s with
  | None => None
  | Some ETA =>
      let max_eta := PrimFloat.mul ETA (PyFloat.of_int MAX_ETA_SCALE) in
      match PyFloat.truediv ETA max_eta with
      | None => None
      | Some ratio =>
          let P_imminent :=
            PrimFloat.mul platoon_weight
              (max_0 (PrimFloat.sub (PyFloat.of_int 1) ratio)) in
          Some (PrimFloat.mul P_imminent GREEN_WAVE_CONTRIB)
      end
  end.

Definition calculate_cps (traffic_score safety_penalty priority_bonus : float)
  : float :=
  PrimFloat.add (PrimFloat.sub traffic_score safety_penalty) priority_bonus.

(** ** Signal metrics and the intersection totals (dem.py) *)

(** What the service reads from a summary: the items of the
    [unique_vehicles] dictionary in iteration order, the two violation
    counts and the average platoon speed. *)
Record SummaryView := {
  sv_unique_vehicles : list (string * Z);
  sv_hard_braking_count : Z;
  sv_tailgating_count : Z;
  sv_avg_platoon_speed_kmh : float
}.

(** [items] are the items of the dictionary [d], in some order. *)
Definition items_of (d : gmap string Z) (items : list (string * Z)) : Prop :=
  NoDup items.*1 ∧ list_to_map items = d.

(** The view of a report of [analyze_traffic_comprehensive] whose
    [unique_vehicles] dictionary iterates as [items]. *)
Definition view_of (s : Summary) (items : list (string * Z)) : SummaryView :=
  {| sv_unique_vehicles := items;
     sv_hard_braking_count := hard_braking_count s;
     sv_tailgating_count := tailgating_count s;
     sv_avg_platoon_speed_kmh := avg_platoon_speed_kmh s |}.

Record SignalMetrics := {
  sm_vehicle_counts : list (string * Z);
  sm_total_vehicles : Z;
  sm_hard_brakes : Z;
  sm_tailgating : Z;
  sm_total_rows : Z;
  sm_T_clear_seconds : Z;
  sm_cps : float;
  sm_traffic_score : float;
  sm_safety_penalty : float;
  sm_priority_bonus : float;
  sm_avg_platoon_speed_kmh : float
}.

(** [sum(d.values())] on the items of a dictionary of integers. *)
Definition sum_items (items : list (string * Z)) : Z :=
  fold_left (λ acc item, acc + item.2) items 0.

(** [calculate_signal_metrics]; [None] stands for the ZeroDivisionError of
    the green-wave bonus. *)
Definition calculate_signal_metrics (summary : SummaryView) (lanes : Z)
    (platoon_weight distance_m avg_speed_m_s : float)
  : option SignalMetrics :=
  let vehicle_counts := sv_unique_vehicles summary in
  let total_vehicles := sum_items vehicle_counts in
  let '(total_time, total_rows) :=
    total_clear_time_and_rows total_vehicles lanes in
  let hard_brakes := sv_hard_braking_count summary in
  let tailgating := sv_tailgating_count summary in
  let traffic_score := calculate_traffic_score vehicle_counts in
  let safety_penalty := calculate_safety_penalty hard_brakes tailgating in
  match calculate_green_wave_bonus platoon_weight distance_m avg_speed_m_s
  with
  | None => None
  | Some priority_bonus =>
      Some {| sm_vehicle_counts := vehicle_counts;
              sm_total_vehicles := total_vehicles;
              sm_hard_brakes := hard_brakes;
              sm_tailgating := tailgating;
              sm_total_rows := total_rows;
              sm_T_clear_seconds := total_time;
              sm_cps := calculate_cps traffic_score safety_penalty
                          priority_bonus;
              sm_traffic_score := traffic_score;
              sm_safety_penalty := safety_penalty;
              sm_priority_bonus := priority_bonus;
              sm_avg_platoon_speed_kmh := sv_avg_platoon_speed_kmh summary |}
  end.

(** [combined[cls] = combined.get(cls, 0) + count] for the items of one
    summary. *)
Definition add_counts (combined : gmap string Z) (items : list (string * Z))
  : gmap string Z :=
  fold_left (λ acc item, <[item.1 := default 0 (acc !! item.1) + item.2]> acc)
    items combined.

(** The intersection-wide totals of [analyze_intersection1], for the
    summaries of its signals. *)
Record IntersectionSummary := {
  is_total_vehicles : Z;
  is_vehicle_counts : gmap string Z;
  is_hard_brakes : Z;
  is_tailgating : Z
}.

Definition intersection_summary (summaries : list SummaryView)
  : IntersectionSummary :=
  let combined :=
    fold_left (λ acc s, add_counts acc (sv_unique_vehicles s)) summaries ∅ in
  {| is_total_vehicles := sum_values combined;
     is_vehicle_counts := combined;
     is_hard_brakes :=
       fold_left (λ acc s, acc + sv_hard_braking_count s) summaries 0;
     is_tailgating :=
       fold_left (λ acc s, acc + sv_tailgating_count s) summaries 0 |}.

(** The sum of a list of integers. *)
Definition sum_Z (l : list Z) : Z := foldr Z.add 0 l.

(** The count a summary's items give to the class [c]. *)
Definition count_for (c : string) (items : list (string * Z)) : Z :=
  sum_items (filter (λ item, item.1 = c) items).

(** A class name with a weight in [CLASS_WEIGHTS]. *)
Definition weighted (item : string * Z) : Prop :=
  is_Some (CLASS_WEIGHTS !! item.1).

(** Two vehicles 199.9 px apart: 9.995... m at k = 0.05, which rounds to
    10.0. *)
Definition near_threshold_run : list Frame :=
  [[at_point 1 0 0; at_point 2 199 19]].

(** The clearance time of [rows] rows in tenths of a second, as the
    source's constants give it: 3.8, 3.1, 2.7 and 2.2 s for the first four
    rows, 2.1 s for each further row. *)
Definition ideal_tenths (rows : Z) : Z :=
  if rows <=? 0 then 0
  else if rows =? 1 then 38
  else if rows =? 2 then 69
  else if rows =? 3 then 96
  else 118 + 21 * (rows - 4).

(** The checks of the clearance time for one queue length and lane count:
    the rows are the least number of rows holding the queue, the time is
    within half a second of the ideal time, and one more vehicle never
    shortens it. *)
Definition clear_time_checked (queue_length lanes : Z) : bool :=
  let '(t, rows) := total_clear_time_and_rows queue_length lanes in
  ((rows - 1) * lanes <? queue_length) && (queue_length <=? rows * lanes)
  && (Z.abs (10 * t - ideal_tenths rows) <=? 5)
  && (t <=? (total_clear_time_and_rows (queue_length + 1) lanes).1).

(** * Properties *)

(** ** The per-vehicle variables of a run *)

Lemma vehicle_step_part cfg st d :
  vehicle_part (vehicle_step cfg st d) = vehicle_step cfg (vehicle_part st) d.
Proof. reflexivity. Qed.

Lemma vehicles_pass_acc cfg f st objs vps :
  fold_left (process_vehicle cfg) f (st, objs, vps)
  = (fold_left (vehicle_step cfg) f st,
     objs ++ (fold_left (process_vehicle cfg) f (st, [], [])).1.2,
     vps ++ (fold_left (process_vehicle cfg) f (st, [], [])).2).
Proof.
  revert st objs vps.
  induction f as [|d f IH]; intros st objs vps; simpl.
  - by rewrite !app_nil_r.
  - rewrite (IH _ (objs ++ _)), (IH _ [vehicle_object cfg st d]).
    simpl. by rewrite <- !app_assoc.
Qed.

Lemma vehicles_pass_state cfg st f :
  (vehicles_pass cfg st f).1.1 = fold_left (vehicle_step cfg) f st.
Proof. unfold vehicles_pass. by rewrite vehicles_pass_acc. Qed.

Lemma fold_vehicle_step_part cfg f st :
  vehicle_part (fold_left (vehicle_step cfg) f st)
  = fold_left (vehicle_step cfg) f (vehicle_part st).
Proof.
  revert st. induction f as [|d f IH]; intros st; simpl; [done|].
  by rewrite IH.
Qed.

Lemma process_pairs_part cfg ps st objs :
  vehicle_part (fold_left (process_pair cfg) ps (st, objs)).1 = vehicle_part st.
Proof.
  revert st objs. induction ps as [|[a b] ps IH]; intros st objs; [done|].
  simpl. by rewrite IH.
Qed.

Lemma process_frame_part cfg st f :
  vehicle_part (process_frame cfg st f)
  = fold_left (vehicle_step cfg) f (vehicle_part st).
Proof.
  unfold process_frame.
  pose proof (vehicles_pass_state cfg (begin_frame st) f) as Hst.
  destruct (vehicles_pass cfg (begin_frame st) f) as [[st1 objs1] vps].
  simpl in Hst. subst st1.
  pose proof (process_pairs_part cfg (pairs vps)
                (fold_left (vehicle_step cfg) f (begin_frame st)) objs1) as Hp.
  destruct (fold_left (process_pair cfg) _ _) as [st2 objs2].
  simpl in Hp.
  transitivity (vehicle_part st2); [done|].
  by rewrite Hp, fold_vehicle_step_part.
Qed.

(** A run leaves the per-vehicle variables as the flat sequence of its
    detections does. *)
Lemma run_track cfg frames :
  vehicle_part (run cfg frames) = track cfg (concat frames).
Proof.
  unfold run, track.
  change init_state with (vehicle_part init_state) at 2.
  generalize init_state.
  induction frames as [|f frames IH]; intros st; simpl; [done|].
  by rewrite IH, process_frame_part, fold_left_app.
Qed.

Lemma track_snoc cfg h d :
  track cfg (h ++ [d]) = vehicle_step cfg (track cfg h) d.
Proof. unfold track. by rewrite fold_left_app. Qed.

Lemma state_at_track cfg frames pre :
  vehicle_part (state_at cfg frames pre) = track cfg (concat frames ++ pre).
Proof.
  unfold state_at. rewrite vehicles_pass_state, fold_vehicle_step_part.
  change (vehicle_part (begin_frame (run cfg frames)))
    with (vehicle_part (run cfg frames)).
  rewrite run_track. unfold track. by rewrite fold_left_app.
Qed.

Lemma state_at_snoc cfg frames pre d :
  state_at cfg frames (pre ++ [d]) = vehicle_step cfg (state_at cfg frames pre) d.
Proof.
  unfold state_at. rewrite !vehicles_pass_state. by rewrite fold_left_app.
Qed.

(** Projections of [state_at] read through [track]. *)
Ltac via_track cfg frames pre :=
  pose proof (state_at_track cfg frames pre) as Hvia;
  apply (f_equal prev_positions) in Hvia as Hvia_pos;
  apply (f_equal prev_speeds) in Hvia as Hvia_spd;
  apply (f_equal braking_flagged) in Hvia as Hvia_brk;
  simpl in Hvia_pos, Hvia_spd, Hvia_brk.

(** ** Stored positions and speeds *)

Lemma last_seen_snoc id h d :
  last_seen id (h ++ [d])
  = if decide (track_id d = id) then Some d else last_seen id h.
Proof.
  unfold last_seen. rewrite filter_app, filter_cons, filter_nil.
  destruct (decide (track_id d = id)); simpl.
  - by rewrite last_snoc.
  - by rewrite app_nil_r.
Qed.

Lemma last_seen_none id h :
  last_seen id h = None ↔ ∀ d, d ∈ h → track_id d ≠ id.
Proof.
  induction h as [|d h IH] using rev_ind.
  - split; [|done]. intros _ d Hd. by apply elem_of_nil in Hd.
  - rewrite last_seen_snoc.
    destruct (decide (track_id d = id)) as [Hd|Hd].
    + split; [done|]. intros Hall. destruct (Hall d); [set_solver|done].
    + rewrite IH. split.
      * intros Hall d' [Hd'| ->%list_elem_of_singleton]%elem_of_app; auto.
      * intros Hall d' Hd'. apply Hall. set_solver.
Qed.

Lemma last_seen_split id h1 d0 h2 :
  track_id d0 = id → (∀ d, d ∈ h2 → track_id d ≠ id) →
  last_seen id (h1 ++ d0 :: h2) = Some d0.
Proof.
  intros Hid. induction h2 as [|d h2 IH] using rev_ind; intros Hno.
  - rewrite last_seen_snoc. by rewrite decide_True.
  - change (h1 ++ d0 :: h2 ++ [d]) with (h1 ++ (d0 :: h2) ++ [d]).
    rewrite app_assoc, last_seen_snoc.
    rewrite decide_False by (apply Hno; set_solver).
    apply IH. intros d' Hd'. apply Hno. set_solver.
Qed.

(** The stored center of an id is the center of its last detection: entries
    are overwritten, never removed. *)
Lemma track_prev_positions cfg h id :
  prev_positions (track cfg h) !! id = (λ d, center (box d)) <$> last_seen id h.
Proof.
  induction h as [|d h IH] using rev_ind; [done|].
  rewrite track_snoc, last_seen_snoc. simpl.
  destruct (decide (track_id d = id)) as [<-|Hd].
  - by rewrite lookup_insert_eq.
  - by rewrite lookup_insert_ne.
Qed.

Lemma fold_vehicle_step_untouched cfg h st id :
  (∀ d, d ∈ h → track_id d ≠ id) →
  prev_positions (fold_left (vehicle_step cfg) h st) !! id
  = prev_positions st !! id
  ∧ prev_speeds (fold_left (vehicle_step cfg) h st) !! id
    = prev_speeds st !! id.
Proof.
  revert st. induction h as [|d h IH]; intros st Hno; [done|].
  simpl. destruct (IH (vehicle_step cfg st d)) as [-> ->].
  { intros d' Hd'. apply Hno. set_solver. }
  assert (track_id d ≠ id) by (apply Hno; set_solver).
  simpl. by rewrite !lookup_insert_ne.
Qed.

(** The stored speed of an id is the speed computed at its last
    detection. *)
Lemma track_prev_speeds cfg h1 d0 h2 :
  (∀ d, d ∈ h2 → track_id d ≠ track_id d0) →
  prev_speeds (track cfg (h1 ++ d0 :: h2)) !! track_id d0
  = Some (speed_at cfg (track cfg h1) d0).
Proof.
  intros Hno. unfold track. rewrite fold_left_app. simpl.
  destruct (fold_vehicle_step_untouched cfg h2
              (vehicle_step cfg (fold_left (vehicle_step cfg) h1 init_state) d0)
              (track_id d0) Hno) as [_ ->].
  simpl. by rewrite lookup_insert_eq.
Qed.

Lemma track_prev_speeds_none cfg h id :
  prev_speeds (track cfg h) !! id = None ↔ last_seen id h = None.
Proof.
  induction h as [|d h IH] using rev_ind; [done|].
  rewrite track_snoc, last_seen_snoc. simpl.
  destruct (decide (track_id d = id)) as [<-|Hd].
  - rewrite lookup_insert_eq. split; discriminate.
  - by rewrite lookup_insert_ne.
Qed.

Lemma speed_at_part cfg st d :
  speed_at cfg (vehicle_part st) d = speed_at cfg st d.
Proof. reflexivity. Qed.

(** C4: the speed computed for a detection is the Euclidean pixel
    displacement from the stored previous center times [pixel_to_meter]
    times [fps] times 3.6; the stored center is that of the entity's last
    detection; an entity never seen before gets speed 0; the computed speed
    is what the run stores; a displacement of 10 px at 10 fps with
    k = 0.05 gives exactly 18.0 km/h (scenario A of the specification). *)
Theorem speed_is_displacement_times_k_fps (cfg : Config)
    (frames : list Frame) (pre : list Detection) (d : Detection) :
  let st := state_at cfg frames pre in
  let id := track_id d in
  let c := center (box d) in
  (∀ px py, prev_positions st !! id = Some (px, py) →
     speed_at cfg st d = kmh cfg (dist_px (c.1 - px) (c.2 - py)))
  ∧ (∀ h1 d0 h2,
       concat frames ++ pre = h1 ++ d0 :: h2 → track_id d0 = id →
       (∀ d1, d1 ∈ h2 → track_id d1 ≠ id) →
       prev_positions st !! id = Some (center (box d0)))
  ∧ ((∀ d0, d0 ∈ concat frames ++ pre → track_id d0 ≠ id) →
       speed_at cfg st d = PrimFloat.zero)
  ∧ prev_speeds (state_at cfg frames (pre ++ [d])) !! id
    = Some (speed_at cfg st d)
  ∧ dist_px (100 - 100) (110 - 100) = 10%float
  ∧ kmh default_config 10 = 18%float
  ∧ speed_at default_config
      (state_at default_config [[at_point 7 100 100]] [])
      (at_point 7 100 110) = 18%float.
Proof.
  intros st id c. via_track cfg frames pre. fold st in Hvia_pos.
  repeat split.
  - intros px py Hprev. unfold speed_at. fold id c. by rewrite Hprev.
  - intros h1 d0 h2 Hh Hid Hno.
    rewrite Hvia_pos, track_prev_positions, Hh.
    by rewrite (last_seen_split id h1 d0 h2 Hid Hno).
  - intros Hnew. unfold speed_at. fold id.
    rewrite Hvia_pos, track_prev_positions.
    by rewrite (proj2 (last_seen_none id _) Hnew).
  - rewrite state_at_snoc. simpl. by rewrite lookup_insert_eq.
Qed.

Lemma speed_is_displacement_times_k_fps_witness :
  speed_at default_config (state_at default_config [[at_point 7 100 100]] [])
    (at_point 7 100 110)
  = kmh default_config (dist_px (100 - 100) (110 - 100)).
Proof.
  refine (proj1 (speed_is_displacement_times_k_fps default_config
                   [[at_point 7 100 100]] [] (at_point 7 100 110))
            100 100 _).
  by vm_compute.
Defined.

Lemma track_keeps cfg h d :
  d ∈ h →
  is_Some (prev_positions (track cfg h) !! track_id d)
  ∧ is_Some (prev_speeds (track cfg h) !! track_id d).
Proof.
  intros Hd.
  assert (last_seen (track_id d) h ≠ None) as Hlast.
  { rewrite last_seen_none. intros Hall. by apply (Hall d). }
  split.
  - rewrite track_prev_positions.
    destruct (last_seen (track_id d) h); [by eexists|done].
  - rewrite <- not_eq_None_Some. by rewrite track_prev_speeds_none.
Qed.

Lemma history_split (frames : list Frame) pre0 d0 post0 gap pre :
  concat (frames ++ (pre0 ++ d0 :: post0) :: gap) ++ pre
  = (concat frames ++ pre0) ++ d0 :: (post0 ++ concat gap ++ pre).
Proof.
  rewrite concat_app. simpl. by rewrite <- !app_assoc.
Qed.

(** C10: an entity seen again after any number of frames without it gets
    the speed of a one-frame step from its last stored center
    (displacement times [pixel_to_meter] times [fps] times 3.6, whatever the
    length of the gap), and its stored speed is still the one of its last
    detection; no stored position or speed is ever removed.  In
    [reappearing_run] vehicle 7 comes back 500 px away after three frames:
    its speed is 900 km/h, and the next frame (1 px further, 1.8 km/h)
    flags it for hard braking. *)
Theorem reappearance_speed_from_last_center (cfg : Config)
    (frames : list Frame) (pre0 : list Detection) (d0 : Detection)
    (post0 : list Detection) (gap : list Frame) (pre : list Detection)
    (d : Detection) :
  track_id d0 = track_id d →
  Forall (λ d1, track_id d1 ≠ track_id d) (post0 ++ concat gap ++ pre) →
  let st := state_at cfg (frames ++ (pre0 ++ d0 :: post0) :: gap) pre in
  let c := center (box d) in
  let c0 := center (box d0) in
  speed_at cfg st d = kmh cfg (dist_px (c.1 - c0.1) (c.2 - c0.2))
  ∧ prev_speeds st !! track_id d
    = Some (speed_at cfg (state_at cfg frames pre0) d0)
  ∧ (∀ d1, d1 ∈ concat (frames ++ (pre0 ++ d0 :: post0) :: gap) ++ pre →
       is_Some (prev_positions st !! track_id d1)
       ∧ is_Some (prev_speeds st !! track_id d1))
  ∧ speed_at default_config
      (state_at default_config (take 4 reappearing_run) [])
      (at_point 7 100 600) = 900%float
  ∧ speed_at default_config
      (state_at default_config (take 5 reappearing_run) [])
      (at_point 7 100 601) = 1.8%float
  ∧ braking_flagged (run default_config (take 5 reappearing_run)) = ∅
  ∧ braking_flagged (run default_config reappearing_run) = {[7]}.
Proof.
  intros Hid Hgap st c c0.
  rewrite Forall_forall in Hgap. rename Hgap into Hno.
  via_track cfg (frames ++ (pre0 ++ d0 :: post0) :: gap) pre.
  fold st in Hvia_pos, Hvia_spd.
  rewrite history_split in Hvia_pos, Hvia_spd.
  split; [|split; [|split]].
  - unfold speed_at. rewrite Hvia_pos, track_prev_positions.
    rewrite (last_seen_split _ _ d0 _ Hid Hno). simpl.
    by destruct (center (box d0)).
  - rewrite Hvia_spd, <- Hid, track_prev_speeds by (by rewrite Hid).
    by rewrite <- state_at_track, speed_at_part.
  - intros d1 Hd1. rewrite <- history_split in Hvia_pos, Hvia_spd.
    rewrite Hvia_pos, Hvia_spd. by apply track_keeps.
  - repeat split; by vm_compute.
Qed.

Lemma reappearance_speed_from_last_center_witness :
  speed_at default_config (state_at default_config (take 4 reappearing_run) [])
    (at_point 7 100 600)
  = kmh default_config (dist_px (100 - 100) (600 - 100)).
Proof.
  apply (reappearance_speed_from_last_center default_config []
           [] (at_point 7 100 100) []
           [[at_point 8 300 50]; []; [at_point 8 300 60]] []
           (at_point 7 100 600)).
  - reflexivity.
  - simpl. repeat constructor; discriminate.
Defined.

(** ** Directional counting *)

Lemma crossed_part dir st : crossed dir (vehicle_part st) = crossed dir st.
Proof. by destruct dir. Qed.

Lemma counted_ids_part dir st :
  counted_ids dir (vehicle_part st) = counted_ids dir st.
Proof. by destruct dir. Qed.

Lemma counter_part dir st : counter dir (vehicle_part st) = counter dir st.
Proof. by destruct dir. Qed.

Lemma step_crossed cfg dir st d :
  crossed dir (vehicle_step cfg st d)
  = touch (touch_line dir cfg) (det_cy d) (track_id d) (crossed dir st).
Proof. by destruct dir. Qed.

Lemma step_counted_ids cfg dir st d :
  counted_ids dir (vehicle_step cfg st d)
  = if counts_now (crossed dir (vehicle_step cfg st d)) (counted_ids dir st)
         (count_line dir cfg) (det_cy d) (track_id d)
    then {[track_id d]} ∪ counted_ids dir st
    else counted_ids dir st.
Proof. by destruct dir. Qed.

Lemma step_counter cfg dir st d :
  counter dir (vehicle_step cfg st d)
  = if counts_now (crossed dir (vehicle_step cfg st d)) (counted_ids dir st)
         (count_line dir cfg) (det_cy d) (track_id d)
    then incr (class_list cfg (class_idx d)) (counter dir st)
    else counter dir st.
Proof. by destruct dir. Qed.

Lemma in_dict_true {V} id (m : gmap Z V) :
  in_dict id m = true ↔ is_Some (m !! id).
Proof.
  unfold in_dict. destruct (m !! id); split; done || by intros [? ?].
Qed.

Lemma in_dict_touch line cy id' id m :
  in_dict id (touch line cy id' m) = true
  ↔ in_dict id m = true ∨ (id' = id ∧ in_band line 3 cy = true).
Proof.
  unfold touch. destruct (in_band line 3 cy); [|naive_solver].
  destruct (in_dict id' m) eqn:Hin.
  - split; [auto|]. intros [?|[<- _]]; done.
  - rewrite !in_dict_true. destruct (decide (id' = id)) as [<-|Hne].
    + rewrite lookup_insert_eq. naive_solver.
    + rewrite lookup_insert_ne by done. naive_solver.
Qed.

Lemma touched_snoc cfg dir id h d :
  touched cfg dir id (h ++ [d])
  ↔ touched cfg dir id h
    ∨ (track_id d = id ∧ in_band (touch_line dir cfg) 3 (det_cy d) = true).
Proof.
  unfold touched. split.
  - intros (d0 & [Hd0| ->%list_elem_of_singleton]%elem_of_app & Hid & Hb);
      [left; by exists d0 | by right].
  - intros [(d0 & Hd0 & Hid & Hb)|[Hid Hb]].
    + exists d0. set_solver.
    + exists d. set_solver.
Qed.

(** The touch mark of an id is set exactly when one of its detections so far
    was within 3 pixels of the touch line. *)
Lemma track_crossed cfg dir h id :
  in_dict id (crossed dir (track cfg h)) = true ↔ touched cfg dir id h.
Proof.
  induction h as [|d h IH] using rev_ind.
  - split; [by destruct dir|]. intros (d0 & Hd0 & _). by apply elem_of_nil in Hd0.
  - by rewrite track_snoc, step_crossed, in_dict_touch, touched_snoc, IH.
Qed.

Lemma counts_now_true cfg dir h d :
  counts_now (crossed dir (track cfg (h ++ [d])))
    (counted_ids dir (track cfg h)) (count_line dir cfg) (det_cy d)
    (track_id d) = true
  ↔ qualifies cfg dir h d ∧ track_id d ∉ counted_ids dir (track cfg h).
Proof.
  unfold counts_now, qualifies.
  rewrite !andb_true_iff, negb_true_iff, bool_decide_eq_false, track_crossed.
  tauto.
Qed.

Lemma qualified_before_snoc cfg dir id h d :
  qualified_before cfg dir id (h ++ [d])
  ↔ qualified_before cfg dir id h ∨ (track_id d = id ∧ qualifies cfg dir h d).
Proof.
  unfold qualified_before. split.
  - intros (h1 & d1 & h2 & Heq & Hid & Hq).
    destruct h2 as [|d2 h2 _] using rev_ind.
    + apply app_inj_tail in Heq as [-> ->]. by right.
    + left. exists h1, d1, h2.
      change (h1 ++ d1 :: h2 ++ [d2]) with (h1 ++ (d1 :: h2) ++ [d2]) in Heq.
      rewrite app_assoc in Heq. by apply app_inj_tail in Heq as [-> _].
  - intros [(h1 & d1 & h2 & -> & Hid & Hq)|[Hid Hq]].
    + exists h1, d1, (h2 ++ [d]). by rewrite <- app_assoc.
    + by exists h, d, [].
Qed.

(** An id is marked as counted exactly when one of its detections so far
    qualified. *)
Lemma track_counted cfg dir h id :
  id ∈ counted_ids dir (track cfg h) ↔ qualified_before cfg dir id h.
Proof.
  induction h as [|d h IH] using rev_ind.
  - split; [by destruct dir|].
    intros (h1 & d1 & h2 & Heq & _). by destruct h1.
  - rewrite qualified_before_snoc, <- IH.
    rewrite (track_snoc cfg h d), step_counted_ids, <- track_snoc.
    destruct (counts_now _ _ _ _ _) eqn:Hc.
    + apply counts_now_true in Hc as [Hq Hnew]. set_solver.
    + split; [auto|]. intros [?|[<- Hq]]; [done|].
      destruct (decide (track_id d ∈ counted_ids dir (track cfg h))); [done|].
      assert (counts_now (crossed dir (track cfg (h ++ [d])))
                (counted_ids dir (track cfg h)) (count_line dir cfg)
                (det_cy d) (track_id d) = true) as Hc'
        by (by apply counts_now_true).
      congruence.
Qed.

Lemma sum_values_insert (m : gmap string Z) k v :
  m !! k = None → sum_values (<[k := v]> m) = v + sum_values m.
Proof.
  intros Hk. unfold sum_values.
  rewrite map_fold_insert_L; [done| |done]. intros; lia.
Qed.

Lemma sum_values_delete (m : gmap string Z) k v :
  m !! k = Some v → sum_values m = v + sum_values (delete k m).
Proof.
  intros Hk. unfold sum_values.
  rewrite (map_fold_delete_L _ _ k v m); [done| |done]. intros; lia.
Qed.

(** [d[k] += 1] adds one to the sum of the values. *)
Lemma sum_values_incr (m : gmap string Z) k :
  sum_values (incr k m) = sum_values m + 1.
Proof.
  unfold incr. destruct (m !! k) as [v|] eqn:Hk; simpl.
  - rewrite <- (insert_delete_eq m k), sum_values_insert
      by apply lookup_delete_eq.
    rewrite (sum_values_delete m k v Hk). lia.
  - rewrite sum_values_insert by done. lia.
Qed.

Lemma incr_lookup (m : gmap string Z) k k' :
  incr k m !! k'
  = if decide (k = k') then Some (default 0 (m !! k) + 1) else m !! k'.
Proof. unfold incr. by rewrite lookup_insert. Qed.

(** The counting invariant: the counters add up to the number of counted
    ids, and every counted id carries the touch mark. *)
Lemma track_count_invariant cfg dir h :
  sum_values (counter dir (track cfg h))
  = Z.of_nat (size (counted_ids dir (track cfg h)))
  ∧ counted_ids dir (track cfg h) ⊆ dom (crossed dir (track cfg h)).
Proof.
  induction h as [|d h [IHsum IHsub]] using rev_ind.
  - by destruct dir.
  - rewrite (track_snoc cfg h d), step_counter, step_counted_ids, <- track_snoc.
    assert (dom (crossed dir (track cfg h))
            ⊆ dom (crossed dir (track cfg (h ++ [d])))) as Hmono.
    { intros id. rewrite !elem_of_dom, <- !in_dict_true, !track_crossed,
        touched_snoc. auto. }
    destruct (counts_now _ _ _ _ _) eqn:Hc; [|split; [done|set_solver]].
    pose proof Hc as [[Hq1 Hq2] Hnew]%counts_now_true.
    split.
    + rewrite sum_values_incr, IHsum, size_union, size_singleton by set_solver.
      lia.
    + apply track_crossed, in_dict_true, elem_of_dom in Hq2. set_solver.
Qed.

Lemma state_at_crossed cfg dir frames pre :
  crossed dir (state_at cfg frames pre)
  = crossed dir (track cfg (concat frames ++ pre)).
Proof. by rewrite <- state_at_track, crossed_part. Qed.

Lemma state_at_counted_ids cfg dir frames pre :
  counted_ids dir (state_at cfg frames pre)
  = counted_ids dir (track cfg (concat frames ++ pre)).
Proof. by rewrite <- state_at_track, counted_ids_part. Qed.

Lemma state_at_counter cfg dir frames pre :
  counter dir (state_at cfg frames pre)
  = counter dir (track cfg (concat frames ++ pre)).
Proof. by rewrite <- state_at_track, counter_part. Qed.

(** C1: in a run that has processed the detections [h] and now processes
    [d] of entity [id] and class [cls], the direction's counter of [cls]
    grows by exactly one (other classes unchanged) when [d] qualifies (center
    within 5 px of the count line, and a touch of the touch line within 3 px
    by [id] so far) and no earlier detection of [id] qualified; in every
    other case the counters are unchanged.  Hence each entity is counted
    at most once per direction, at its first qualifying detection; the
    "counted" mark is set exactly for the entities with a qualifying
    detection, and the counters add up to the number of marked entities.
    Nothing in a direction's rule reads the other direction's variables: in
    [two_way_run] the same vehicle is counted once downward and once
    upward. *)
Theorem counted_once_per_direction (cfg : Config) (dir : Direction)
    (frames : list Frame) (pre : list Detection) (d : Detection) :
  let st := state_at cfg frames pre in
  let st' := state_at cfg frames (pre ++ [d]) in
  let h := concat frames ++ pre in
  let id := track_id d in
  let cls := class_list cfg (class_idx d) in
  (qualifies cfg dir h d → ¬ qualified_before cfg dir id h →
     counter dir st' !! cls = Some (default 0 (counter dir st !! cls) + 1)
     ∧ ∀ c, c ≠ cls → counter dir st' !! c = counter dir st !! c)
  ∧ (¬ (qualifies cfg dir h d ∧ ¬ qualified_before cfg dir id h) →
       counter dir st' = counter dir st)
  ∧ (∀ id', id' ∈ counted_ids dir st ↔ qualified_before cfg dir id' h)
  ∧ sum_values (counter dir st) = Z.of_nat (size (counted_ids dir st))
  ∧ count_red_to_blue (run default_config two_way_run) = {["car"%string := 1]}
  ∧ count_blue_to_red (run default_config two_way_run) = {["car"%string := 1]}.
Proof.
  intros st st' h id cls. subst st st' id cls.
  rewrite state_at_snoc, step_counter, <- state_at_snoc.
  rewrite !state_at_crossed, !state_at_counted_ids, !state_at_counter.
  rewrite app_assoc. fold h.
  pose proof (counts_now_true cfg dir h d) as Hc.
  rewrite track_counted in Hc.
  split; [|split; [|split; [|split]]].
  - intros Hq Hfirst.
    rewrite (proj2 Hc) by done. split.
    + by rewrite incr_lookup, decide_True.
    + intros c Hne. by rewrite incr_lookup, decide_False.
  - intros Hnot. destruct (counts_now _ _ _ _ _); [|done].
    destruct Hnot. by apply Hc.
  - intros id'. apply track_counted.
  - apply track_count_invariant.
  - split; by vm_compute.
Qed.

Lemma counted_once_per_direction_witness :
  counter Downward (state_at default_config (take 1 two_way_run)
                      ([] ++ [at_point 1 200 400])) !! "car"%string
  = Some (default 0 (counter Downward
                       (state_at default_config (take 1 two_way_run) [])
                     !! "car"%string) + 1).
Proof.
  refine (proj1 (proj1 (counted_once_per_direction default_config Downward
                          (take 1 two_way_run) [] (at_point 1 200 400)) _ _)).
  - split; [reflexivity|].
    exists (at_point 1 200 350). repeat split. constructor.
  - intros (h1 & d1 & h2 & Heq & _ & Hband & _).
    destruct h1 as [|d0 [|? ?]]; simplify_eq/=.
Defined.

(** C5: at every point of a run, the per-class counters of a direction sum
    to at most the number of distinct ids carrying that direction's touch
    mark (red marks for downward, blue marks for upward); the same holds of
    the completed run and of the totals of the report. *)
Theorem counts_bounded_by_touches (cfg : Config) (dir : Direction)
    (frames : list Frame) (pre : list Detection) :
  sum_values (counter dir (state_at cfg frames pre))
    ≤ Z.of_nat (size (crossed dir (state_at cfg frames pre)))
  ∧ sum_values (counter dir (run cfg frames))
    ≤ Z.of_nat (size (crossed dir (run cfg frames)))
  ∧ ∀ s, analyze_traffic_comprehensive cfg frames = Some s →
      total_downward s ≤ Z.of_nat (size (crossed_red_first (run cfg frames)))
      ∧ total_upward s ≤ Z.of_nat (size (crossed_blue_first (run cfg frames))).
Proof.
  assert (∀ dir h, sum_values (counter dir (track cfg h))
                   ≤ Z.of_nat (size (crossed dir (track cfg h)))) as Hle.
  { intros dir' h. destruct (track_count_invariant cfg dir' h) as [-> Hsub].
    apply subseteq_size in Hsub. rewrite size_dom in Hsub. lia. }
  assert (∀ dir, sum_values (counter dir (run cfg frames))
                 ≤ Z.of_nat (size (crossed dir (run cfg frames)))) as Hrun.
  { intros dir'.
    rewrite <- (counter_part dir' (run cfg frames)),
      <- (crossed_part dir' (run cfg frames)), run_track.
    apply Hle. }
  split; [|split].
  - rewrite state_at_counter, state_at_crossed. apply Hle.
  - apply Hrun.
  - unfold analyze_traffic_comprehensive, build_summary. intros s Hs.
    destruct (PyFloat.truediv _ _); [|done]. simplify_eq/=.
    split; [apply (Hrun Downward)|apply (Hrun Upward)].
Qed.

Lemma counts_bounded_by_touches_witness :
  total_downward
    (default (Build_Summary 0 0 0 ∅ ∅ ∅ 0 0 0 [] 0 [] 0 0 0 0)
       (analyze_traffic_comprehensive default_config two_way_run))
  ≤ Z.of_nat (size (crossed_red_first (run default_config two_way_run))).
Proof.
  refine (proj1 (proj2 (proj2 (counts_bounded_by_touches default_config
                                 Downward two_way_run [])) _ _)).
  by vm_compute.
Defined.

(** ** Hard braking *)

Lemma last_seen_some id h d0 :
  last_seen id h = Some d0 →
  ∃ h1 h2, h = h1 ++ d0 :: h2 ∧ track_id d0 = id
           ∧ Forall (λ d1, track_id d1 ≠ id) h2.
Proof.
  induction h as [|d h IH] using rev_ind; [done|].
  rewrite last_seen_snoc.
  destruct (decide (track_id d = id)) as [Hd|Hd].
  - intros [= ->]. by exists h, [].
  - intros (h1 & h2 & -> & Hid & Hno)%IH.
    exists h1, (h2 ++ [d]). rewrite <- app_assoc. repeat split; [done|].
    apply Forall_app. split; [done|]. by repeat constructor.
Qed.

Lemma speed_at_track cfg h d : speed_at cfg (track cfg h) d = speed_in cfg h d.
Proof. unfold speed_at, speed_in. by rewrite track_prev_positions. Qed.

(** The code's test [speed_drop > braking_thresh], on the stored previous
    speed, is the drop read off the history. *)
Lemma speed_drops_track cfg h d :
  speed_drops cfg (track cfg h) d = true ↔ drops cfg h d.
Proof.
  unfold speed_drops, drops. rewrite speed_at_track. split.
  - destruct (prev_speeds (track cfg h) !! track_id d) as [ps|] eqn:Hps; [|done].
    intros Hgt.
    destruct (last_seen (track_id d) h) as [d0|] eqn:Hlast.
    + apply last_seen_some in Hlast as (h1 & h2 & -> & Hid & Hno).
      exists h1, d0, h2. repeat split; [done..|].
      rewrite <- Hid, track_prev_speeds in Hps
        by (rewrite Hid; by apply Forall_forall).
      injection Hps as <-. by rewrite <- speed_at_track.
    + apply (track_prev_speeds_none cfg) in Hlast. congruence.
  - intros (h1 & d0 & h2 & -> & Hid & Hno & Hgt).
    rewrite <- Hid, track_prev_speeds by (rewrite Hid; by apply Forall_forall).
    by rewrite speed_at_track.
Qed.

Lemma dropped_before_snoc cfg id h d :
  dropped_before cfg id (h ++ [d])
  ↔ dropped_before cfg id h ∨ (track_id d = id ∧ drops cfg h d).
Proof.
  unfold dropped_before. split.
  - intros (h1 & d1 & h2 & Heq & Hid & Hq).
    destruct h2 as [|d2 h2 _] using rev_ind.
    + apply app_inj_tail in Heq as [-> ->]. by right.
    + left. exists h1, d1, h2.
      change (h1 ++ d1 :: h2 ++ [d2]) with (h1 ++ (d1 :: h2) ++ [d2]) in Heq.
      rewrite app_assoc in Heq. by apply app_inj_tail in Heq as [-> _].
  - intros [(h1 & d1 & h2 & -> & Hid & Hq)|[Hid Hq]].
    + exists h1, d1, (h2 ++ [d]). by rewrite <- app_assoc.
    + by exists h, d, [].
Qed.

Lemma step_braking_flagged cfg st d :
  braking_flagged (vehicle_step cfg st d)
  = if braking_at cfg st d then {[track_id d]} ∪ braking_flagged st
    else braking_flagged st.
Proof. reflexivity. Qed.

Lemma braking_at_true cfg h d :
  braking_at cfg (track cfg h) d = true
  ↔ drops cfg h d ∧ track_id d ∉ braking_flagged (track cfg h).
Proof.
  unfold braking_at.
  by rewrite andb_true_iff, negb_true_iff, bool_decide_eq_false,
    speed_drops_track.
Qed.

(** An id is in the braking-flag set exactly when one of its detections so
    far showed a drop. *)
Lemma track_braking_flagged cfg h id :
  id ∈ braking_flagged (track cfg h) ↔ dropped_before cfg id h.
Proof.
  induction h as [|d h IH] using rev_ind.
  - split; [done|]. intros (h1 & d1 & h2 & Heq & _). by destruct h1.
  - rewrite dropped_before_snoc, <- IH, track_snoc, step_braking_flagged.
    destruct (braking_at cfg (track cfg h) d) eqn:Hb.
    + apply braking_at_true in Hb as [Hd Hnew]. set_solver.
    + split; [auto|]. intros [?|[<- Hd]]; [done|].
      destruct (decide (track_id d ∈ braking_flagged (track cfg h))); [done|].
      assert (braking_at cfg (track cfg h) d = true) as Hb'
        by (by apply braking_at_true).
      congruence.
Qed.

Lemma braking_at_part cfg st d :
  braking_at cfg (vehicle_part st) d = braking_at cfg st d.
Proof. reflexivity. Qed.

(** C2: in a run that has processed the detections [h] and now processes
    [d] of entity [id]: the code's braking test holds exactly when [id] has
    a recorded previous speed and previous minus current speed exceeds
    [braking_thresh]; [id] is added to the braking-flag set (and the
    detection's [braking] mark is set) exactly when that holds and no
    earlier detection of [id] showed such a drop; otherwise the set is
    unchanged and the mark is off.  The set holds exactly the entities with
    such a drop so far; the report lists each of them once, and
    [hard_braking_count] is their number.  In [braking_run] (40, 25,
    10 km/h at threshold 8) vehicle 7 is marked at the first drop only. *)
Theorem braking_flagged_once (cfg : Config) (frames : list Frame)
    (pre : list Detection) (d : Detection) :
  let st := state_at cfg frames pre in
  let st' := state_at cfg frames (pre ++ [d]) in
  let h := concat frames ++ pre in
  let id := track_id d in
  (speed_drops cfg st d = true ↔ drops cfg h d)
  ∧ (drops cfg h d → ¬ dropped_before cfg id h →
       braking_at cfg st d = true ∧ (id ∉ braking_flagged st)
       ∧ braking_flagged st' = {[id]} ∪ braking_flagged st)
  ∧ (¬ (drops cfg h d ∧ ¬ dropped_before cfg id h) →
       braking_at cfg st d = false ∧ braking_flagged st' = braking_flagged st)
  ∧ (∀ id', id' ∈ braking_flagged st ↔ dropped_before cfg id' h)
  ∧ (∀ s, analyze_traffic_comprehensive cfg frames = Some s →
       hard_braking_count s = Z.of_nat (length (hard_braking_ids s))
       ∧ NoDup (hard_braking_ids s)
       ∧ (∀ id', id' ∈ hard_braking_ids s
                 ↔ dropped_before cfg id' (concat frames)))
  ∧ map (λ fd, braking_marks (fd_objects fd))
      (frame_data (run braking_config braking_run))
    = [[(7, false)]; [(7, false)]; [(7, true)]; [(7, false)]]
  ∧ braking_flagged (run braking_config braking_run) = {[7]}
  ∧ prev_speeds (run braking_config (take 2 braking_run)) !! 7
    = Some 40%float
  ∧ prev_speeds (run braking_config (take 3 braking_run)) !! 7
    = Some 25%float
  ∧ prev_speeds (run braking_config braking_run) !! 7 = Some 10%float.
Proof.
  intros st st' h id. subst st st' id.
  rewrite state_at_snoc, step_braking_flagged.
  rewrite <- (braking_at_part cfg (state_at cfg frames pre)).
  assert (speed_drops cfg (state_at cfg frames pre) d
          = speed_drops cfg (vehicle_part (state_at cfg frames pre)) d)
    as -> by reflexivity.
  assert (braking_flagged (state_at cfg frames pre)
          = braking_flagged (vehicle_part (state_at cfg frames pre)))
    as -> by reflexivity.
  rewrite state_at_track. fold h.
  pose proof (braking_at_true cfg h d) as Hb.
  rewrite track_braking_flagged in Hb.
  split; [|split; [|split; [|split; [|split]]]].
  - apply speed_drops_track.
  - intros Hd Hfirst. rewrite (proj2 Hb) by done.
    by rewrite track_braking_flagged.
  - intros Hnot. destruct (braking_at cfg (track cfg h) d); [|done].
    destruct Hnot. by apply Hb.
  - intros id'. apply track_braking_flagged.
  - unfold analyze_traffic_comprehensive, build_summary. intros s Hs.
    destruct (PyFloat.truediv _ _); [|done]. simplify_eq/=.
    split; [done|]. split; [apply NoDup_elements|].
    intros id'. rewrite elem_of_elements, <- track_braking_flagged.
    by rewrite <- run_track.
  - repeat split; by vm_compute.
Qed.

Lemma braking_flagged_once_witness :
  braking_at braking_config (state_at braking_config (take 2 braking_run) [])
    (at_point 7 100 65) = true.
Proof.
  refine (proj1 (proj1 (proj2 (braking_flagged_once braking_config
                                 (take 2 braking_run) []
                                 (at_point 7 100 65))) _ _)).
  - apply speed_drops_track. by vm_compute.
  - rewrite <- track_braking_flagged.
    replace (braking_flagged _) with (∅ : gset Z) by (by vm_compute).
    apply not_elem_of_empty.
Defined.

(** ** The frame-level variables *)

Lemma fold_vehicle_step_rest cfg f st :
  let st' := fold_left (vehicle_step cfg) f st in
  tailgating_flagged st' = tailgating_flagged st
  ∧ platoon_speeds st' = platoon_speeds st
  ∧ distance_records st' = distance_records st
  ∧ frame_data st' = frame_data st
  ∧ frame_no st' = frame_no st.
Proof.
  revert st. induction f as [|d f IH]; intros st; simpl; [done|].
  destruct (IH (vehicle_step cfg st d)) as (-> & -> & -> & -> & ->). done.
Qed.

Lemma vehicles_pass_no_tailgating cfg f st objs vps :
  tailgating_records (fold_left (process_vehicle cfg) f (st, objs, vps)).1.2
  = tailgating_records objs.
Proof.
  revert st objs vps. induction f as [|d f IH]; intros st objs vps; [done|].
  simpl. rewrite IH. unfold tailgating_records.
  by rewrite omap_app, app_nil_r.
Qed.

Lemma close_positions_cons cfg a b ps :
  close_positions cfg ((a, b) :: ps)
  = if PyFloat.lt (pair_dist_m cfg a b) (tailgating_thresh cfg)
    then sorted_pair (vp_id a) (vp_id b) :: close_positions cfg ps
    else close_positions cfg ps.
Proof.
  unfold close_positions. rewrite filter_cons. simpl.
  destruct (PyFloat.lt _ _); by case_decide.
Qed.

(** The effect of the pair loop over the pairs [ps]. *)
Lemma process_pairs_spec cfg ps st objs :
  let r := fold_left (process_pair cfg) ps (st, objs) in
  distance_records r.1
  = distance_records st
    ++ map (λ p, distance_record (frame_no st) cfg p.1 p.2) ps
  ∧ frame_no r.1 = frame_no st
  ∧ platoon_speeds r.1 = platoon_speeds st
  ∧ frame_data r.1 = frame_data st
  ∧ tailgating_flagged r.1
    = tailgating_flagged st ∪ list_to_set (close_positions cfg ps)
  ∧ ∃ new, tailgating_records r.2 = tailgating_records objs ++ new
           ∧ NoDup new
           ∧ ∀ p, p ∈ new ↔ p ∈ close_positions cfg ps
                            ∧ p ∉ tailgating_flagged st.
Proof.
  revert st objs. induction ps as [|[a b] ps IH]; intros st objs.
  - simpl. rewrite app_nil_r. repeat split; [set_solver|].
    exists []. rewrite app_nil_r. repeat split; [constructor|set_solver..].
  - cbv zeta.
    change (fold_left (process_pair cfg) ((a, b) :: ps) (st, objs))
      with (fold_left (process_pair cfg) ps (process_pair cfg (st, objs) (a, b))).
    destruct (process_pair cfg (st, objs) (a, b)) as [st1 objs1] eqn:Hstep.
    destruct (IH st1 objs1)
      as (Hrec & Hno & Hps & Hfd & Hflag & new & Hobjs & Hnd & Hnew).
    rewrite Hrec, Hno, Hps, Hfd, Hflag, Hobjs.
    clear Hrec Hno Hps Hfd Hflag Hobjs IH.
    unfold process_pair in Hstep. injection Hstep as <- <-.
    rewrite close_positions_cons. simpl.
    unfold tailgating_now in *. simpl in Hnew.
    destruct (PyFloat.lt (pair_dist_m cfg a b) (tailgating_thresh cfg));
      simpl in *.
    + destruct (decide (sorted_pair (vp_id a) (vp_id b)
                          ∈ tailgating_flagged st)) as [Hin|Hin].
      * rewrite bool_decide_eq_true_2 in * by done. simpl in *.
        split; [by rewrite <- app_assoc|]. do 3 (split; [done|]).
        split; [set_solver|].
        exists new. split; [done|]. split; [done|]. set_solver.
      * rewrite bool_decide_eq_false_2 in * by done. simpl in *.
        split; [by rewrite <- app_assoc|]. do 3 (split; [done|]).
        split; [set_solver|].
        exists (sorted_pair (vp_id a) (vp_id b) :: new).
        unfold tailgating_records at 1. rewrite omap_app. simpl.
        split; [by rewrite <- app_assoc|].
        split; [constructor; [set_solver|done]|].
        intros p. rewrite !elem_of_cons, Hnew, not_elem_of_union.
        rewrite not_elem_of_singleton.
        destruct (decide (p = sorted_pair (vp_id a) (vp_id b))) as [->|];
          tauto.
    + split; [by rewrite <- app_assoc|]. do 4 (split; [done|]).
      exists new. split; [done|]. split; [done|]. set_solver.
Qed.

(** The effect of one frame on the frame-level variables. *)
Lemma process_frame_spec cfg st f :
  let st' := process_frame cfg st f in
  let vps := frame_positions cfg st f in
  frame_no st' = frame_no st + 1
  ∧ distance_records st'
    = distance_records st
      ++ map (λ p, distance_record (frame_no st + 1) cfg p.1 p.2) (pairs vps)
  ∧ platoon_speeds st'
    = platoon_speeds st ++ from_option (λ s, [s]) [] (platoon_sample vps)
  ∧ tailgating_flagged st'
    = tailgating_flagged st ∪ list_to_set (close_positions cfg (pairs vps))
  ∧ ∃ objs new,
      frame_data st'
      = frame_data st ++ [{| fd_frame := frame_no st + 1; fd_objects := objs |}]
      ∧ tailgating_records objs = new
      ∧ NoDup new
      ∧ ∀ p, p ∈ new ↔ p ∈ close_positions cfg (pairs vps)
                       ∧ p ∉ tailgating_flagged st.
Proof.
  unfold process_frame, frame_positions.
  pose proof (vehicles_pass_state cfg (begin_frame st) f) as Hst.
  pose proof (vehicles_pass_no_tailgating cfg f (begin_frame st) [] [])
    as Hobjs1.
  fold (vehicles_pass cfg (begin_frame st) f) in Hobjs1.
  destruct (vehicles_pass cfg (begin_frame st) f) as [[st1 objs1] vps].
  simpl in Hst, Hobjs1. cbv zeta. simpl snd.
  destruct (fold_vehicle_step_rest cfg f (begin_frame st))
    as (Hflag1 & Hps1 & Hrec1 & Hfd1 & Hno1).
  rewrite <- Hst in Hflag1, Hps1, Hrec1, Hfd1, Hno1. simpl in *.
  destruct (process_pairs_spec cfg (pairs vps) st1 objs1)
    as (Hrec & Hno & Hps & Hfd & Hflag & new & Hobjs & Hnd & Hnew).
  destruct (fold_left (process_pair cfg) (pairs vps) (st1, objs1))
    as [st2 objs2].
  simpl in *.
  rewrite Hrec, Hrec1, Hflag, Hflag1, Hfd, Hfd1, Hps, Hps1, Hno, Hno1.
  split; [done|]. split; [done|].
  split; [destruct (platoon_sample vps); simpl; by rewrite ?app_nil_r|].
  split; [done|].
  exists objs2, new. rewrite Hobjs, Hobjs1. simpl.
  split; [done|]. split; [done|]. split; [done|].
  intros p. by rewrite Hnew, Hflag1.
Qed.

Lemma run_snoc cfg frames f :
  run cfg (frames ++ [f]) = process_frame cfg (run cfg frames) f.
Proof. unfold run. by rewrite fold_left_app. Qed.

Lemma run_frame_no cfg frames :
  frame_no (run cfg frames) = Z.of_nat (length frames).
Proof.
  induction frames as [|f frames IH] using rev_ind; [done|].
  rewrite run_snoc.
  destruct (process_frame_spec cfg (run cfg frames) f) as [-> _].
  rewrite IH, length_app. simpl. lia.
Qed.

(** ** Positions of a frame *)

Lemma vehicles_pass_positions cfg f st objs vps :
  (fold_left (process_vehicle cfg) f (st, objs, vps)).2
  = vps ++ positions_from cfg st f.
Proof.
  revert st objs vps. induction f as [|d f IH]; intros st objs vps; simpl.
  - by rewrite app_nil_r.
  - by rewrite IH, <- app_assoc.
Qed.

Lemma frame_positions_from cfg st f :
  frame_positions cfg st f = positions_from cfg (begin_frame st) f.
Proof. unfold frame_positions, vehicles_pass. by rewrite vehicles_pass_positions. Qed.

Lemma positions_from_same_place cfg st f :
  Forall2 same_place (positions_from cfg st f) f.
Proof.
  revert st. induction f as [|d f IH]; intros st; simpl; constructor; [|done].
  split; [done|]. simpl. by destruct (center (box d)).
Qed.

Lemma positions_from_lookup cfg st pre d post :
  positions_from cfg st (pre ++ d :: post) !! length pre
  = Some (vehicle_pos cfg (fold_left (vehicle_step cfg) pre st) d).
Proof.
  revert st. induction pre as [|d0 pre IH]; intros st; simpl; [done|].
  apply IH.
Qed.

Lemma frame_positions_length cfg st f :
  length (frame_positions cfg st f) = length f.
Proof.
  rewrite frame_positions_from.
  apply (Forall2_length _ _ _ (positions_from_same_place cfg _ f)).
Qed.

(** ** Pairs of a list *)

Lemma pair_count_succ n : pair_count (S n) = (n + pair_count n)%nat.
Proof.
  unfold pair_count. replace (S n * (S n - 1))%nat with (n * 2 + n * (n - 1))%nat.
  - by rewrite Nat.div_add_l.
  - destruct n; simpl; lia.
Qed.

Lemma pairs_length {A} (l : list A) : length (pairs l) = pair_count (length l).
Proof.
  induction l as [|x l IH]; [done|].
  simpl pairs. simpl length at 2.
  by rewrite length_app, length_map, IH, pair_count_succ.
Qed.

Lemma pairs_Forall2 {A B} (R : A → B → Prop) l1 l2 :
  Forall2 R l1 l2 →
  Forall2 (λ p q, R p.1 q.1 ∧ R p.2 q.2) (pairs l1) (pairs l2).
Proof.
  induction 1 as [|x y l1 l2 Hxy Hl IH]; simpl; [constructor|].
  apply Forall2_app; [|done].
  apply Forall2_fmap. eapply Forall2_impl; [exact Hl|]. by intros a b Hab.
Qed.

Lemma Forall2_map_eq {A B C} (R : A → B → Prop) (g1 : A → C) (g2 : B → C)
    l1 l2 :
  Forall2 R l1 l2 → (∀ a b, R a b → g1 a = g2 b) → map g1 l1 = map g2 l2.
Proof.
  intros HR Hg. induction HR as [|x y l1 l2 Hxy Hl IH]; simpl; [done|].
  by rewrite IH, (Hg x y Hxy).
Qed.

Lemma Forall2_filter {A B} (R : A → B → Prop) (P1 : A → Prop) (P2 : B → Prop)
    `{∀ a, Decision (P1 a)} `{∀ b, Decision (P2 b)} l1 l2 :
  Forall2 R l1 l2 → (∀ a b, R a b → P1 a ↔ P2 b) →
  Forall2 R (filter P1 l1) (filter P2 l2).
Proof.
  intros HR HP. induction HR as [|x y l1 l2 Hxy Hl IH]; [constructor|].
  rewrite !filter_cons. pose proof (HP x y Hxy).
  destruct (decide (P1 x)), (decide (P2 y)); try tauto. by constructor.
Qed.

Lemma pair_dist_same_place cfg a b a' b' :
  same_place a a' → same_place b b' →
  pair_dist_m cfg a b = det_dist_m cfg a' b'.
Proof.
  intros [_ Ha] [_ Hb]. unfold pair_dist_m, det_dist_m.
  by rewrite <- Ha, <- Hb.
Qed.

Lemma frame_pairs_same_place cfg st f :
  Forall2 (λ p q, same_place p.1 q.1 ∧ same_place p.2 q.2)
    (pairs (frame_positions cfg st f)) (pairs f).
Proof.
  rewrite frame_positions_from.
  apply pairs_Forall2, positions_from_same_place.
Qed.

(** The close pairs among a frame's positions are those of its rows. *)
Lemma close_positions_frame cfg st f :
  close_positions cfg (pairs (frame_positions cfg st f)) = close_pairs cfg f.
Proof.
  unfold close_positions, close_pairs.
  eapply Forall2_map_eq.
  - eapply Forall2_filter; [apply frame_pairs_same_place|].
    intros [a b] [a' b'] [Ha Hb]. unfold close. simpl in *.
    by rewrite (pair_dist_same_place cfg a b a' b' Ha Hb).
  - intros [a b] [a' b'] [[Ha _] [Hb _]]. simpl in *. by rewrite Ha, Hb.
Qed.

(** ** Distance records *)

Lemma sum_list_snoc (l : list nat) (n : nat) :
  sum_list (l ++ [n]) = (sum_list l + n)%nat.
Proof. induction l as [|m l IH]; simpl; lia. Qed.

Lemma distance_records_length cfg frames :
  length (distance_records (run cfg frames))
  = sum_list (map (λ f, pair_count (length f)) frames).
Proof.
  induction frames as [|f frames IH] using rev_ind; [done|].
  rewrite run_snoc.
  destruct (process_frame_spec cfg (run cfg frames) f) as (_ & -> & _).
  rewrite length_app, length_map, pairs_length, frame_positions_length, IH.
  rewrite map_app. simpl. by rewrite sum_list_snoc.
Qed.

Lemma positions_with_speeds vps (f : list Detection) :
  Forall2 same_place vps f →
  Forall2 (λ v r, same_place v r.1 ∧ vp_speed v = r.2)
    vps (zip f (map vp_speed vps)).
Proof. induction 1; simpl; by constructor. Qed.

(** The records a frame logs, written out field by field on the rows of
    the frame paired with the speeds computed for them. *)
Lemma frame_distance_records cfg st f frame_index :
  map (λ p, distance_record frame_index cfg p.1 p.2)
    (pairs (frame_positions cfg st f))
  = map (λ p, {| dr_frame := frame_index;
                 dr_id1 := track_id p.1.1;
                 dr_id2 := track_id p.2.1;
                 dr_speed1 := PyFloat.round2 p.1.2;
                 dr_speed2 := PyFloat.round2 p.2.2;
                 dr_distance := PyFloat.round2 (det_dist_m cfg p.1.1 p.2.1) |})
      (pairs (zip f (map vp_speed (frame_positions cfg st f)))).
Proof.
  eapply Forall2_map_eq.
  - apply pairs_Forall2, positions_with_speeds.
    rewrite frame_positions_from. apply positions_from_same_place.
  - intros [a b] [[a' va] [b' vb]] [[Ha Hva] [Hb Hvb]]. simpl in *.
    unfold distance_record.
    rewrite (pair_dist_same_place cfg a b a' b' Ha Hb), Hva, Hvb.
    destruct Ha as [-> _], Hb as [-> _]. done.
Qed.

(** C7: each frame appends to the distance log exactly one record per index
    pair [i < j] of its rows, in loop order, whatever the distance.  The
    record of a pair carries the frame number, the track ids of the two
    rows, the speeds computed for the two rows in this frame (each rounded
    to two decimals) and the metric distance of their centers (rounded to
    two decimals).  The old log is kept as a prefix, so a frame with [n]
    rows adds [n * (n - 1) / 2] records, and [total_distance_records] is the
    sum of these numbers over the frames. *)
Theorem distance_record_per_pair_per_frame (cfg : Config)
    (frames : list Frame) (f : Frame) :
  let st := run cfg frames in
  let frame_index := Z.of_nat (length frames) + 1 in
  let speeds := map vp_speed (frame_positions cfg st f) in
  let news :=
    map (λ p, {| dr_frame := frame_index;
                 dr_id1 := track_id p.1.1;
                 dr_id2 := track_id p.2.1;
                 dr_speed1 := PyFloat.round2 p.1.2;
                 dr_speed2 := PyFloat.round2 p.2.2;
                 dr_distance :=
                   PyFloat.round2 (det_dist_m cfg p.1.1 p.2.1) |})
      (pairs (zip f speeds)) in
  distance_records (run cfg (frames ++ [f])) = distance_records st ++ news
  ∧ length speeds = length f
  ∧ (∀ pre d post, f = pre ++ d :: post →
       speeds !! length pre = Some (speed_at cfg (state_at cfg frames pre) d))
  ∧ map (λ r, (dr_frame r, dr_id1 r, dr_id2 r)) news
    = map (λ p, (frame_index, track_id p.1, track_id p.2)) (pairs f)
  ∧ length news = pair_count (length f)
  ∧ length (distance_records st)
    = sum_list (map (λ f0, pair_count (length f0)) frames)
  ∧ (∀ s, analyze_traffic_comprehensive cfg frames = Some s →
       total_distance_records s
       = Z.of_nat (sum_list (map (λ f0, pair_count (length f0)) frames))).
Proof.
  intros st frame_index speeds news. subst st frame_index speeds news.
  rewrite run_snoc.
  destruct (process_frame_spec cfg (run cfg frames) f) as (_ & -> & _).
  rewrite run_frame_no, <- frame_distance_records.
  split; [done|]. split; [|split; [|split; [|split; [|split]]]].
  - by rewrite length_map, frame_positions_length.
  - intros pre d post ->.
    rewrite list_lookup_fmap, frame_positions_from, positions_from_lookup.
    unfold state_at. by rewrite vehicles_pass_state.
  - rewrite map_map. simpl.
    eapply Forall2_map_eq; [apply frame_pairs_same_place|].
    intros [a b] [a' b'] [[Ha _] [Hb _]]. simpl in *. by rewrite Ha, Hb.
  - by rewrite length_map, pairs_length, frame_positions_length.
  - apply distance_records_length.
  - unfold analyze_traffic_comprehensive, build_summary. intros s Hs.
    destruct (PyFloat.truediv _ _); [|done]. simplify_eq/=.
    by rewrite distance_records_length.
Qed.

Lemma distance_record_per_pair_per_frame_witness :
  total_distance_records
    (default (Build_Summary 0 0 0 ∅ ∅ ∅ 0 0 0 [] 0 [] 0 0 0 0)
       (analyze_traffic_comprehensive default_config tailgating_run))
  = Z.of_nat (sum_list (map (λ f0, pair_count (length f0)) tailgating_run)).
Proof.
  refine (proj2 (proj2 (proj2 (proj2 (proj2 (proj2
            (distance_record_per_pair_per_frame default_config
               tailgating_run [])))))) _ _).
  by vm_compute.
Defined.

Lemma float_neq (x y : float) : Prim2SF x ≠ Prim2SF y → x ≠ y.
Proof. intros Hne ->. by apply Hne. Qed.

(** C9, as stated, fails: two vehicles at the fixed pixel distance
    [sqrt 2] with k = 0.05 are recorded at distance 0.07 in both frames,
    not at d * k = 0.0707.... *)
Lemma recorded_distance_is_not_d_times_k :
  ¬ (∀ r, r ∈ distance_records (run default_config fixed_pair_run) →
          dr_distance r
          = PrimFloat.mul (dist_px (0 - 1) (0 - 1))
              (pixel_to_meter default_config)).
Proof.
  intros Hall.
  assert (0.07%float = 0.07071067811865477%float) as Heq.
  { refine (Hall (Build_DistanceRecord 1 1 2 0 0 0.07) _).
    vm_compute. constructor. }
  revert Heq. apply float_neq. vm_compute. discriminate.
Qed.

(** C9, amended: the distance stored in each record of a frame is the
    metric distance of the two rows (pixel distance of the centers times
    [pixel_to_meter]) rounded to two decimals; it depends on the two centers
    and on [pixel_to_meter] only, so a pair at fixed positions is recorded
    with the same value in every frame. *)
Theorem recorded_distance_is_rounded (cfg : Config) (frames : list Frame)
    (f : Frame) :
  ∃ news,
    distance_records (run cfg (frames ++ [f]))
    = distance_records (run cfg frames) ++ news
    ∧ map dr_distance news
      = map (λ p, PyFloat.round2 (det_dist_m cfg p.1 p.2)) (pairs f)
    ∧ map dr_distance (distance_records (run default_config fixed_pair_run))
      = [0.07%float; 0.07%float].
Proof.
  rewrite run_snoc.
  destruct (process_frame_spec cfg (run cfg frames) f) as (_ & -> & _).
  eexists. split; [done|]. split; [|by vm_compute].
  rewrite map_map. simpl.
  eapply Forall2_map_eq; [apply frame_pairs_same_place|].
  intros [a b] [a' b'] [Ha Hb]. simpl in *.
  by rewrite (pair_dist_same_place cfg a b a' b' Ha Hb).
Qed.

(** ** Platoon samples *)

(** C8: a frame appends a platoon sample exactly when it has at least three
    rows; the sample is the sum of the speeds computed for the rows of this
    frame divided by their number, with no condition on positions.  Two
    vehicles give no sample; three vehicles at 10, 20 and 30 km/h give
    exactly 20.0. *)
Theorem platoon_sample_when_three_visible (cfg : Config)
    (frames : list Frame) (f : Frame) :
  let st := run cfg frames in
  let speeds := map vp_speed (frame_positions cfg st f) in
  platoon_speeds (run cfg (frames ++ [f]))
  = platoon_speeds st
    ++ (if decide (3 ≤ length f)%nat
        then [PrimFloat.div (PyFloat.sum speeds)
                (PyFloat.of_int (Z.of_nat (length f)))]
        else [])
  ∧ length speeds = length f
  ∧ (∀ pre d post, f = pre ++ d :: post →
       speeds !! length pre = Some (speed_at cfg (state_at cfg frames pre) d))
  ∧ (∀ a b, platoon_sample [a; b] = None)
  ∧ (∀ vps, map vp_speed vps = [10; 20; 30]%float →
       platoon_sample vps = Some 20%float).
Proof.
  intros st speeds. subst st speeds.
  rewrite run_snoc.
  destruct (process_frame_spec cfg (run cfg frames) f) as (_ & _ & -> & _).
  split; [|split; [|split; [|split]]].
  - unfold platoon_sample. rewrite frame_positions_length.
    destruct (decide (3 ≤ length f)%nat) as [Hn|Hn].
    + by rewrite (proj2 (Z.leb_le _ _)) by lia.
    + by rewrite (proj2 (Z.leb_gt _ _)) by lia.
  - by rewrite length_map, frame_positions_length.
  - intros pre d post ->.
    rewrite list_lookup_fmap, frame_positions_from, positions_from_lookup.
    unfold state_at. by rewrite vehicles_pass_state.
  - done.
  - intros vps Hvps. unfold platoon_sample.
    rewrite <- (length_map vp_speed), Hvps. by vm_compute.
Qed.

Lemma platoon_sample_when_three_visible_witness :
  platoon_sample
    [Build_VehiclePos 1 0 0 10 "car"; Build_VehiclePos 2 0 0 20 "car";
     Build_VehiclePos 3 0 0 30 "car"]
  = Some 20%float.
Proof.
  refine (proj2 (proj2 (proj2 (proj2
            (platoon_sample_when_three_visible default_config [] [])))) _ _).
  reflexivity.
Defined.

(** ** Tailgating *)

(** The effect of one frame on the tailgating variables, in terms of the
    frame's rows. *)
Lemma process_frame_tailgating cfg st f :
  tailgating_flagged (process_frame cfg st f)
  = tailgating_flagged st ∪ list_to_set (close_pairs cfg f)
  ∧ ∃ new,
      all_tailgating_records (process_frame cfg st f)
      = all_tailgating_records st ++ new
      ∧ NoDup new
      ∧ ∀ p, p ∈ new ↔ p ∈ close_pairs cfg f ∧ p ∉ tailgating_flagged st.
Proof.
  destruct (process_frame_spec cfg st f)
    as (_ & _ & _ & Hflag & objs & new & Hfd & Hobjs & Hnd & Hnew).
  rewrite close_positions_frame in Hflag, Hnew.
  split; [done|]. exists new. split; [|done].
  unfold all_tailgating_records. rewrite Hfd, map_app, concat_app. simpl.
  by rewrite Hobjs, app_nil_r.
Qed.

(** A pair is in the tailgating-flag set exactly when some frame so far had
    it closer than the threshold. *)
Lemma run_tailgating_flagged cfg frames p :
  p ∈ tailgating_flagged (run cfg frames)
  ↔ ∃ f0, f0 ∈ frames ∧ p ∈ close_pairs cfg f0.
Proof.
  induction frames as [|f frames IH] using rev_ind.
  - split; [set_solver|]. intros (f0 & Hf0 & _). by apply elem_of_nil in Hf0.
  - rewrite run_snoc.
    destruct (process_frame_tailgating cfg (run cfg frames) f) as [-> _].
    rewrite elem_of_union, elem_of_list_to_set, IH. split.
    + intros [(f0 & Hf0 & Hp)|Hp]; [exists f0|exists f]; set_solver.
    + intros (f0 & [Hf0| ->%list_elem_of_singleton]%elem_of_app & Hp);
        [left; by exists f0|by right].
Qed.

(** The tailgating entries of a run are pairwise distinct, and they are the
    members of the tailgating-flag set. *)
Lemma run_tailgating_records cfg frames :
  NoDup (all_tailgating_records (run cfg frames))
  ∧ ∀ p, p ∈ all_tailgating_records (run cfg frames)
         ↔ p ∈ tailgating_flagged (run cfg frames).
Proof.
  induction frames as [|f frames [IHnd IHin]] using rev_ind.
  - split; [constructor|]. intros p. set_solver.
  - rewrite run_snoc.
    destruct (process_frame_tailgating cfg (run cfg frames) f)
      as [-> (new & -> & Hnd & Hnew)].
    split.
    + apply NoDup_app. repeat split; [done| |done].
      intros p Hp Hp'. apply Hnew in Hp' as [_ Hp']. by apply Hp', IHin.
    + intros p. rewrite elem_of_app, elem_of_union, elem_of_list_to_set.
      rewrite Hnew, IHin.
      destruct (decide (p ∈ tailgating_flagged (run cfg frames))); tauto.
Qed.

Lemma sorted_pair_comm a b : sorted_pair a b = sorted_pair b a.
Proof. unfold sorted_pair. by rewrite Z.min_comm, Z.max_comm. Qed.

(** C3: a pair is identified by its sorted ids, whatever the order of the
    two rows; it is in the tailgating-flag set exactly when some frame so
    far had both vehicles at a metric distance strictly below
    [tailgating_thresh]; a frame emits a tailgating entry for a pair exactly
    when the pair is close in it and was close in no earlier frame; the
    entries of a run are pairwise distinct, they are the members of the
    set, and [tailgating_count] is their number.  In [tailgating_run]
    (8 m, then 2 m twice, threshold 10) the pair (3, 5) gets its entry in
    the first frame only, while every frame logs a distance record. *)
Theorem tailgating_pair_flagged_once (cfg : Config) (frames : list Frame)
    (f : Frame) :
  let st := run cfg frames in
  let st' := run cfg (frames ++ [f]) in
  (∀ a b, sorted_pair a b = sorted_pair b a)
  ∧ (∀ p, p ∈ tailgating_flagged st
          ↔ ∃ f0, f0 ∈ frames ∧ p ∈ close_pairs cfg f0)
  ∧ (∃ new,
       all_tailgating_records st' = all_tailgating_records st ++ new
       ∧ ∀ p, p ∈ new ↔ p ∈ close_pairs cfg f
                        ∧ ¬ ∃ f0, f0 ∈ frames ∧ p ∈ close_pairs cfg f0)
  ∧ NoDup (all_tailgating_records st)
  ∧ (∀ p, p ∈ all_tailgating_records st ↔ p ∈ tailgating_flagged st)
  ∧ (∀ s, analyze_traffic_comprehensive cfg frames = Some s →
       tailgating_count s = Z.of_nat (length (all_tailgating_records st))
       ∧ ∀ p, p ∈ tailgating_pairs s ↔ p ∈ all_tailgating_records st)
  ∧ map (λ fd, tailgating_records (fd_objects fd))
      (frame_data (run default_config tailgating_run))
    = [[(3, 5)]; []; []]
  ∧ map dr_distance (distance_records (run default_config tailgating_run))
    = [8; 2; 2]%float.
Proof.
  intros st st'. subst st st'.
  destruct (run_tailgating_records cfg frames) as [Hnd Hin].
  split; [apply sorted_pair_comm|].
  split; [apply run_tailgating_flagged|].
  split; [|split; [done|split; [done|split]]].
  - rewrite run_snoc.
    destruct (process_frame_tailgating cfg (run cfg frames) f)
      as [_ (new & -> & _ & Hnew)].
    exists new. split; [done|]. intros p.
    by rewrite Hnew, run_tailgating_flagged.
  - unfold analyze_traffic_comprehensive, build_summary. intros s Hs.
    destruct (PyFloat.truediv _ _); [|done]. simplify_eq/=.
    assert (elements (tailgating_flagged (run cfg frames))
            ≡ₚ all_tailgating_records (run cfg frames)) as Hperm.
    { apply NoDup_Permutation; [apply NoDup_elements|done|].
      intros p. by rewrite elem_of_elements, Hin. }
    split.
    + unfold size, set_size. simpl. by rewrite Hperm.
    + intros p. by rewrite Hperm.
  - split; by vm_compute.
Qed.

Lemma tailgating_pair_flagged_once_witness :
  tailgating_count
    (default (Build_Summary 0 0 0 ∅ ∅ ∅ 0 0 0 [] 0 [] 0 0 0 0)
       (analyze_traffic_comprehensive default_config tailgating_run))
  = Z.of_nat (length (all_tailgating_records
                        (run default_config tailgating_run))).
Proof.
  refine (proj1 (proj1 (proj2 (proj2 (proj2 (proj2 (proj2
            (tailgating_pair_flagged_once default_config
               tailgating_run [])))))) _ _)).
  by vm_compute.
Defined.

(** ** Configuration *)

(** C6, as stated, fails: with [pixel_to_meter = 0] and the blue line above
    the red line, the run processes its frame and emits a report. *)
Lemma invalid_configuration_is_processed :
  PyFloat.gt (pixel_to_meter invalid_config) 0 = false
  ∧ line_y_blue invalid_config ≤ line_y_red invalid_config
  ∧ ∃ s, analyze_traffic_comprehensive invalid_config [[at_point 1 0 300]]
         = Some s
         ∧ total_frames s = 1
         ∧ unique_vehicles s !! "total_unique_vehicles"%string = Some 1
         ∧ prev_positions (run invalid_config [[at_point 1 0 300]]) !! 1
           = Some (0, 300).
Proof.
  split; [by vm_compute|]. split; [by vm_compute|].
  eexists. split; [by vm_compute|]. repeat split; by vm_compute.
Qed.

(** C6, amended: the function does not inspect its calibration and line
    arguments; whatever their values, every frame is processed and, for a
    nonzero [fps], a report is emitted whose frame count is the number of
    frames. *)
Theorem no_configuration_check (cfg : Config) (frames : list Frame) :
  PrimFloat.eqb (fps cfg) PrimFloat.zero = false →
  ∃ s, analyze_traffic_comprehensive cfg frames = Some s
       ∧ total_frames s = Z.of_nat (length frames)
       ∧ length (frame_data (run cfg frames)) = length frames.
Proof.
  intros Hfps. unfold analyze_traffic_comprehensive, build_summary.
  unfold PyFloat.truediv. rewrite Hfps. eexists. split; [done|]. simpl.
  split; [apply run_frame_no|].
  induction frames as [|f frames IH] using rev_ind; [done|].
  rewrite run_snoc.
  destruct (process_frame_spec cfg (run cfg frames) f)
    as (_ & _ & _ & _ & objs & new & -> & _).
  rewrite !length_app, IH. done.
Qed.

Lemma no_configuration_check_witness :
  ∃ s, analyze_traffic_comprehensive invalid_config [[at_point 1 0 300]]
       = Some s
       ∧ total_frames s = Z.of_nat (length [[at_point 1 0 300]])
       ∧ length (frame_data (run invalid_config [[at_point 1 0 300]]))
         = length [[at_point 1 0 300]].
Proof.
  apply (no_configuration_check invalid_config [[at_point 1 0 300]]).
  reflexivity.
Defined.

(** * Further properties of the run and its report *)

(** ** Registered vehicles and the class histogram *)

Lemma track_vehicles_seen cfg h id :
  vehicles_seen (track cfg h) !! id = last_class cfg id h.
Proof.
  unfold last_class.
  induction h as [|d h IH] using rev_ind; [done|].
  rewrite track_snoc, last_seen_snoc. simpl.
  destruct (decide (track_id d = id)) as [<-|Hd].
  - by rewrite lookup_insert_eq.
  - by rewrite lookup_insert_ne.
Qed.

Lemma run_vehicles_seen cfg frames :
  vehicles_seen (run cfg frames) = vehicles_seen (track cfg (concat frames)).
Proof. by rewrite <- run_track. Qed.

Lemma last_seen_is_Some id h :
  is_Some (last_seen id h) ↔ id ∈ seen_ids h.
Proof.
  unfold seen_ids. rewrite elem_of_list_to_set, list_elem_of_fmap.
  rewrite <- not_eq_None_Some, last_seen_none. split.
  - intros Hsome.
    destruct (decide (Exists (λ d, track_id d = id) h)) as [Hex|Hex].
    + apply Exists_exists in Hex as (d & Hd & Hid). by exists d.
    + destruct Hsome. intros d Hd Hid. apply Hex, Exists_exists. by exists d.
  - intros (d & -> & Hd) Hall. by apply (Hall d).
Qed.

Lemma dom_vehicles_seen cfg h :
  dom (vehicles_seen (track cfg h)) = seen_ids h.
Proof.
  apply set_eq. intros id.
  rewrite elem_of_dom, track_vehicles_seen, <- last_seen_is_Some.
  unfold last_class. by rewrite fmap_is_Some.
Qed.

Lemma incr_comm (m : gmap string Z) a b :
  incr a (incr b m) = incr b (incr a m).
Proof.
  apply map_eq. intros k. rewrite !incr_lookup.
  repeat case_decide; simplify_eq; try done.
Qed.

Lemma histogram_insert (m : gmap Z string) id c :
  m !! id = None →
  map_fold (λ _ cls acc, incr cls acc) ∅ (<[id := c]> m)
  = incr c (map_fold (λ _ cls acc, incr cls acc) ∅ m).
Proof.
  intros Hid. rewrite map_fold_insert_L; [done| |done].
  intros. apply incr_comm.
Qed.

(** The histogram gives each class the number of ids registered with it. *)
Lemma histogram_lookup (m : gmap Z string) c :
  default 0 (map_fold (λ _ cls acc, incr cls acc) ∅ m !! c)
  = Z.of_nat (size (filter (λ kv, kv.2 = c) m)).
Proof.
  induction m as [|id x m Hid IH] using map_ind.
  - by rewrite map_fold_empty, map_filter_empty, map_size_empty.
  - rewrite histogram_insert, incr_lookup by done.
    rewrite map_filter_insert. simpl.
    destruct (decide (x = c)) as [->|Hne].
    + simpl.
      rewrite map_size_insert_None by (by rewrite map_lookup_filter, Hid).
      rewrite IH. lia.
    + by rewrite delete_id.
Qed.

Lemma histogram_sum (m : gmap Z string) :
  sum_values (map_fold (λ _ cls acc, incr cls acc) ∅ m) = Z.of_nat (size m).
Proof.
  induction m as [|id x m Hid IH] using map_ind.
  - by rewrite map_fold_empty, map_size_empty.
  - rewrite histogram_insert, sum_values_incr, IH by done.
    rewrite map_size_insert_None by done. lia.
Qed.

Lemma class_filter_dom cfg h c :
  dom (filter (λ kv, kv.2 = c) (vehicles_seen (track cfg h)))
  = ids_of_class cfg h c.
Proof.
  apply set_eq. intros id. unfold ids_of_class.
  rewrite elem_of_dom, elem_of_filter. unfold is_Some.
  setoid_rewrite map_lookup_filter_Some. simpl.
  setoid_rewrite track_vehicles_seen. split.
  - intros (x & Hx & ->). split; [done|].
    apply last_seen_is_Some. unfold last_class in Hx.
    destruct (last_seen id h); [by eexists|done].
  - intros [Hc _]. by exists c.
Qed.

Lemma sum_values_insert_any (m : gmap string Z) k v :
  sum_values (<[k := v]> m) = v + sum_values m - default 0 (m !! k).
Proof.
  destruct (m !! k) as [w|] eqn:Hk; simpl.
  - rewrite <- (insert_delete_eq m k), sum_values_insert
      by apply lookup_delete_eq.
    rewrite (sum_values_delete m k w Hk). lia.
  - rewrite sum_values_insert by done. lia.
Qed.

(** The sum of the values of the histogram with its extra key. *)
Lemma vehicle_counts_sum cfg h :
  sum_values (vehicle_counts (vehicles_seen (track cfg h)))
  = 2 * Z.of_nat (size (seen_ids h))
    - Z.of_nat (size (ids_of_class cfg h total_key)).
Proof.
  unfold vehicle_counts. fold total_key.
  rewrite sum_values_insert_any, histogram_sum, histogram_lookup.
  rewrite <- (class_filter_dom cfg h total_key), size_dom.
  rewrite <- (dom_vehicles_seen cfg h), size_dom. lia.
Qed.

(** X1: every track id of the run is registered with the class name of its
    latest detection; the report's histogram gives, under
    [total_unique_vehicles], the number of distinct track ids, and under
    every other class name the number of ids registered with that class. *)
Theorem unique_vehicles_by_last_class (cfg : Config) (frames : list Frame)
    (s : Summary) :
  analyze_traffic_comprehensive cfg frames = Some s →
  (∀ id, vehicles_seen (run cfg frames) !! id
         = last_class cfg id (concat frames))
  ∧ unique_vehicles s !! total_key
    = Some (Z.of_nat (size (seen_ids (concat frames))))
  ∧ (∀ c, c ≠ total_key →
       default 0 (unique_vehicles s !! c)
       = Z.of_nat (size (ids_of_class cfg (concat frames) c))).
Proof.
  unfold analyze_traffic_comprehensive, build_summary. intros Hs.
  destruct (PyFloat.truediv _ _); [|done]. simplify_eq/=.
  rewrite run_vehicles_seen. split; [|split].
  - intros id. apply track_vehicles_seen.
  - unfold vehicle_counts. fold total_key.
    by rewrite lookup_insert_eq, <- (dom_vehicles_seen cfg), size_dom.
  - intros c Hc. unfold vehicle_counts. fold total_key.
    rewrite lookup_insert_ne by done.
    by rewrite histogram_lookup, <- class_filter_dom, size_dom.
Qed.

Lemma unique_vehicles_by_last_class_witness :
  unique_vehicles
    (default (Build_Summary 0 0 0 ∅ ∅ ∅ 0 0 0 [] 0 [] 0 0 0 0)
       (analyze_traffic_comprehensive default_config reappearing_run))
  !! total_key
  = Some (Z.of_nat (size (seen_ids (concat reappearing_run)))).
Proof.
  refine (proj1 (proj2 (unique_vehicles_by_last_class default_config
                          reappearing_run _ _))).
  by vm_compute.
Defined.

(** ** Nothing recorded is ever removed *)

Lemma extends_refl st : extends st st.
Proof. unfold extends. repeat split; done. Qed.

Lemma extends_trans st1 st2 st3 :
  extends st1 st2 → extends st2 st3 → extends st1 st3.
Proof.
  unfold extends.
  intros (A1 & A2 & A3 & A4 & A5 & A6 & A7 & A8 & A9 & A10 & A11 & A12
          & A13 & A14 & A15)
         (B1 & B2 & B3 & B4 & B5 & B6 & B7 & B8 & B9 & B10 & B11 & B12
          & B13 & B14 & B15).
  repeat split; try (by etrans).
  - intros c. etrans; [apply A9|apply B9].
  - intros c. etrans; [apply A10|apply B10].
Qed.

Lemma incr_grows (m : gmap string Z) k c :
  default 0 (m !! c) ≤ default 0 (incr k m !! c).
Proof. rewrite incr_lookup. case_decide; simplify_eq; simpl; lia. Qed.

Lemma touch_grows line cy id m : dom m ⊆ dom (touch line cy id m).
Proof.
  unfold touch. destruct (in_band line 3 cy); [|done].
  destruct (in_dict id m); [done|]. rewrite dom_insert_L. set_solver.
Qed.

Lemma vehicle_step_extends cfg st d : extends st (vehicle_step cfg st d).
Proof.
  unfold extends. simpl. rewrite !dom_insert_L.
  repeat split; try done; try set_solver; try apply touch_grows.
  - destruct (braking_at cfg st d); set_solver.
  - destruct (counts_now _ _ _ _ _); set_solver.
  - destruct (counts_now _ (counted_ids_blue_to_red st) _ _ _); set_solver.
  - intros c. destruct (counts_now _ _ _ _ _); [apply incr_grows|done].
  - intros c.
    destruct (counts_now _ (counted_ids_blue_to_red st) _ _ _);
      [apply incr_grows|done].
Qed.

Lemma fold_vehicle_step_extends cfg f st :
  extends st (fold_left (vehicle_step cfg) f st).
Proof.
  revert st. induction f as [|d f IH]; intros st; [apply extends_refl|].
  simpl. eapply extends_trans; [apply vehicle_step_extends|apply IH].
Qed.

Lemma process_pair_extends cfg st objs p :
  extends st (process_pair cfg (st, objs) p).1.
Proof.
  destruct p as [a b]. unfold extends. simpl.
  repeat split; try done.
  - destruct (tailgating_now _ _ _ _); set_solver.
  - by apply prefix_app_r.
Qed.

Lemma process_pairs_extends cfg ps st objs :
  extends st (fold_left (process_pair cfg) ps (st, objs)).1.
Proof.
  revert st objs. induction ps as [|p ps IH]; intros st objs;
    [apply extends_refl|].
  change (fold_left (process_pair cfg) (p :: ps) (st, objs))
    with (fold_left (process_pair cfg) ps (process_pair cfg (st, objs) p)).
  pose proof (process_pair_extends cfg st objs p) as Hp.
  destruct (process_pair cfg (st, objs) p) as [st1 objs1].
  exact (extends_trans _ _ _ Hp (IH st1 objs1)).
Qed.

Lemma set_frame_extends st ps fd n :
  platoon_speeds st `prefix_of` ps → frame_data st `prefix_of` fd →
  frame_no st ≤ n → extends st (set_frame st ps fd n).
Proof. intros. unfold extends. simpl. repeat split; done. Qed.

Lemma process_frame_extends cfg st f : extends st (process_frame cfg st f).
Proof.
  unfold process_frame.
  pose proof (vehicles_pass_state cfg (begin_frame st) f) as Hst.
  destruct (vehicles_pass cfg (begin_frame st) f) as [[st1 objs1] vps].
  simpl in Hst.
  pose proof (process_pairs_extends cfg (pairs vps) st1 objs1) as Hp.
  destruct (fold_left (process_pair cfg) (pairs vps) (st1, objs1))
    as [st2 objs2].
  simpl in Hp.
  apply (extends_trans st (begin_frame st));
    [apply set_frame_extends; [done|done|lia]|].
  apply (extends_trans _ st1);
    [subst st1; apply fold_vehicle_step_extends|].
  apply (extends_trans _ st2); [exact Hp|].
  apply set_frame_extends; [|by apply prefix_app_r|done].
  destruct (platoon_sample vps); [by apply prefix_app_r|done].
Qed.

(** X2: continuing a run never removes or lowers anything recorded: the
    stored positions, speeds and classes keep their ids, the braking and
    tailgating flag sets, the touch marks and the counted ids only grow, no
    class counter decreases, and the platoon samples, the distance log and
    the frame log of the shorter run are prefixes of those of the longer
    one. *)
Theorem run_only_accumulates (cfg : Config) (frames more : list Frame) :
  extends (run cfg frames) (run cfg (frames ++ more)).
Proof.
  induction more as [|f more IH] using rev_ind.
  - rewrite app_nil_r. apply extends_refl.
  - rewrite app_assoc, run_snoc.
    eapply extends_trans; [exact IH|apply process_frame_extends].
Qed.

(** ** The frame log and the platoon count *)

Lemma vehicles_pass_marks cfg f st objs vps :
  (braking_marks (fold_left (process_vehicle cfg) f (st, objs, vps)).1.2).*1
  = (braking_marks objs).*1 ++ map track_id f.
Proof.
  revert st objs vps. induction f as [|d f IH]; intros st objs vps; simpl.
  - by rewrite app_nil_r.
  - rewrite IH. unfold braking_marks. rewrite omap_app, fmap_app. simpl.
    by rewrite <- app_assoc.
Qed.

Lemma process_pairs_marks cfg ps st objs :
  braking_marks (fold_left (process_pair cfg) ps (st, objs)).2
  = braking_marks objs.
Proof.
  revert st objs. induction ps as [|[a b] ps IH]; intros st objs; [done|].
  simpl. rewrite IH.
  destruct (tailgating_now _ _ _ _); [|done].
  unfold braking_marks. by rewrite omap_app, app_nil_r.
Qed.

(** The entry a frame appends to the frame log: its number, and one vehicle
    object per row, in row order. *)
Lemma process_frame_log cfg st f :
  ∃ objs,
    frame_data (process_frame cfg st f)
    = frame_data st ++ [{| fd_frame := frame_no st + 1; fd_objects := objs |}]
    ∧ (braking_marks objs).*1 = map track_id f.
Proof.
  unfold process_frame.
  pose proof (vehicles_pass_marks cfg f (begin_frame st) [] []) as Hm.
  pose proof (vehicles_pass_state cfg (begin_frame st) f) as Hst.
  fold (vehicles_pass cfg (begin_frame st) f) in Hm.
  destruct (vehicles_pass cfg (begin_frame st) f) as [[st1 objs1] vps].
  simpl in Hm, Hst.
  destruct (fold_vehicle_step_rest cfg f (begin_frame st))
    as (_ & _ & _ & Hfd1 & Hno1).
  rewrite <- Hst in Hfd1, Hno1. simpl in Hfd1, Hno1.
  pose proof (process_pairs_marks cfg (pairs vps) st1 objs1) as Hm2.
  destruct (process_pairs_spec cfg (pairs vps) st1 objs1)
    as (_ & Hno & _ & Hfd & _).
  destruct (fold_left (process_pair cfg) (pairs vps) (st1, objs1))
    as [st2 objs2].
  simpl in *. exists objs2. by rewrite Hfd, Hfd1, Hno, Hno1, Hm2, Hm.
Qed.

(** X3: the frame log has one entry per frame, numbered 1, 2, ... in
    order, and the vehicle objects of an entry are those of the frame's
    rows, one per row and in row order (tailgating entries aside). *)
Theorem frame_log_follows_frames (cfg : Config) (frames : list Frame) :
  map fd_frame (frame_data (run cfg frames))
  = map Z.of_nat (seq 1 (length frames))
  ∧ map (λ fd, (braking_marks (fd_objects fd)).*1)
      (frame_data (run cfg frames))
    = map (map track_id) frames.
Proof.
  induction frames as [|f frames [IHno IHobjs]] using rev_ind; [done|].
  rewrite run_snoc.
  destruct (process_frame_log cfg (run cfg frames) f) as (objs & -> & Hobjs).
  rewrite !map_app, IHno, IHobjs, length_app, seq_app. simpl.
  rewrite Hobjs, run_frame_no. split; [|done].
  rewrite map_app. simpl. do 2 f_equal. lia.
Qed.

Lemma platoon_sample_is_Some vps :
  platoon_sample vps
  = if decide (3 ≤ length vps)%nat
    then Some (PrimFloat.div (PyFloat.sum (map vp_speed vps))
                 (PyFloat.of_int (Z.of_nat (length vps))))
    else None.
Proof.
  unfold platoon_sample. case_decide.
  - by rewrite (proj2 (Z.leb_le _ _)) by lia.
  - by rewrite (proj2 (Z.leb_gt _ _)) by lia.
Qed.

Lemma platoon_speeds_length cfg frames :
  length (platoon_speeds (run cfg frames))
  = length (filter (λ f : Frame, (3 ≤ length f)%nat) frames).
Proof.
  induction frames as [|f frames IH] using rev_ind; [done|].
  rewrite run_snoc.
  destruct (process_frame_spec cfg (run cfg frames) f) as (_ & _ & -> & _).
  rewrite platoon_sample_is_Some, frame_positions_length.
  rewrite filter_app, !length_app, IH, filter_cons, filter_nil.
  by case_decide.
Qed.

(** X4: [platoon_frames] is the number of frames with at least three rows;
    when there is none, the average platoon speed of the report is 0. *)
Theorem platoon_frames_counts_frames (cfg : Config) (frames : list Frame)
    (s : Summary) :
  analyze_traffic_comprehensive cfg frames = Some s →
  platoon_frames s
  = Z.of_nat (length (filter (λ f : Frame, (3 ≤ length f)%nat) frames))
  ∧ (Forall (λ f : Frame, (length f < 3)%nat) frames →
       avg_platoon_speed_kmh s = PrimFloat.zero).
Proof.
  unfold analyze_traffic_comprehensive, build_summary. intros Hs.
  destruct (PyFloat.truediv _ _); [|done]. simplify_eq/=.
  pose proof (platoon_speeds_length cfg frames) as Hlen.
  split; [by rewrite Hlen|].
  intros Hsmall.
  assert (filter (λ f : Frame, (3 ≤ length f)%nat) frames = []) as Hnil.
  { clear Hlen. induction Hsmall as [|f0 frames0 Hf _ IH]; [done|].
    rewrite filter_cons, IH. case_decide; [lia|done]. }
  rewrite Hnil in Hlen.
  by destruct (platoon_speeds (run cfg frames)).
Qed.

Lemma platoon_frames_counts_frames_witness :
  platoon_frames
    (default (Build_Summary 0 0 0 ∅ ∅ ∅ 0 0 0 [] 0 [] 0 0 0 0)
       (analyze_traffic_comprehensive default_config tailgating_run))
  = Z.of_nat (length (filter (λ f : Frame, (3 ≤ length f)%nat)
                        tailgating_run)).
Proof.
  refine (proj1 (platoon_frames_counts_frames default_config
                   tailgating_run _ _)).
  by vm_compute.
Defined.

(** ** Bounds between the fields of the report *)

Lemma tailgating_size cfg frames :
  size (tailgating_flagged (run cfg frames))
  = length (all_tailgating_records (run cfg frames)).
Proof.
  destruct (run_tailgating_records cfg frames) as [Hnd Hin].
  unfold size, set_size. simpl. apply Permutation_length.
  apply NoDup_Permutation; [apply NoDup_elements|done|].
  intros p. by rewrite elem_of_elements, Hin.
Qed.

Lemma tailgating_records_le cfg frames :
  (length (all_tailgating_records (run cfg frames))
   ≤ length (distance_records (run cfg frames)))%nat.
Proof.
  induction frames as [|f frames IH] using rev_ind; [done|].
  rewrite run_snoc.
  destruct (process_frame_tailgating cfg (run cfg frames) f)
    as [_ (new & -> & Hnd & Hnew)].
  destruct (process_frame_spec cfg (run cfg frames) f) as (_ & -> & _).
  rewrite !length_app, length_map.
  assert (length new ≤ length (pairs (frame_positions cfg (run cfg frames) f)))%nat;
    [|lia].
  rewrite <- close_positions_frame with (st := run cfg frames) in Hnew.
  etrans; [apply submseteq_length, NoDup_submseteq; [done|]|].
  - intros p Hp. by apply Hnew in Hp as [Hp _].
  - unfold close_positions. rewrite length_map. apply length_filter.
Qed.

Lemma dropped_before_seen cfg id h : dropped_before cfg id h → id ∈ seen_ids h.
Proof.
  intros (h1 & d1 & h2 & -> & <- & _). unfold seen_ids.
  rewrite elem_of_list_to_set, list_elem_of_fmap. exists d1. set_solver.
Qed.

Lemma touched_seen cfg dir id h : touched cfg dir id h → id ∈ seen_ids h.
Proof.
  intros (d0 & Hd0 & <- & _). unfold seen_ids.
  rewrite elem_of_list_to_set, list_elem_of_fmap. by exists d0.
Qed.

Lemma directed_total_le_seen cfg dir h :
  sum_values (counter dir (track cfg h)) ≤ Z.of_nat (size (seen_ids h)).
Proof.
  destruct (track_count_invariant cfg dir h) as [-> Hsub].
  apply Nat2Z.inj_le, subseteq_size. etrans; [exact Hsub|].
  intros id. rewrite elem_of_dom, <- in_dict_true, track_crossed.
  apply touched_seen.
Qed.

(** X5: in every report, the tailgating count and the close-proximity count
    are at most the number of distance records, the number of platoon
    frames is at most the number of frames, and the hard-braking count and
    both directional totals are at most the number of distinct vehicles
    ([total_unique_vehicles]). *)
Theorem report_counts_are_bounded (cfg : Config) (frames : list Frame)
    (s : Summary) :
  analyze_traffic_comprehensive cfg frames = Some s →
  tailgating_count s ≤ total_distance_records s
  ∧ close_proximity_count s ≤ total_distance_records s
  ∧ platoon_frames s ≤ total_frames s
  ∧ ∃ n, unique_vehicles s !! total_key = Some n
         ∧ hard_braking_count s ≤ n
         ∧ total_downward s ≤ n
         ∧ total_upward s ≤ n.
Proof.
  unfold analyze_traffic_comprehensive, build_summary. intros Hs.
  destruct (PyFloat.truediv _ _); [|done]. simplify_eq/=.
  split; [|split; [|split]].
  - rewrite tailgating_size. apply Nat2Z.inj_le, tailgating_records_le.
  - apply Nat2Z.inj_le, length_filter.
  - rewrite platoon_speeds_length, run_frame_no.
    apply Nat2Z.inj_le, length_filter.
  - exists (Z.of_nat (size (seen_ids (concat frames)))).
    split; [|split; [|split]].
    + unfold vehicle_counts. fold total_key.
      by rewrite lookup_insert_eq, run_vehicles_seen,
        <- (dom_vehicles_seen cfg), size_dom.
    + apply Nat2Z.inj_le, subseteq_size.
      assert (braking_flagged (run cfg frames)
              = braking_flagged (track cfg (concat frames))) as ->
        by (by rewrite <- run_track).
      intros id Hid. apply (dropped_before_seen cfg).
      by apply track_braking_flagged.
    + change (count_red_to_blue (run cfg frames))
        with (counter Downward (vehicle_part (run cfg frames))).
      rewrite run_track. apply directed_total_le_seen.
    + change (count_blue_to_red (run cfg frames))
        with (counter Upward (vehicle_part (run cfg frames))).
      rewrite run_track. apply directed_total_le_seen.
Qed.

Lemma report_counts_are_bounded_witness :
  tailgating_count
    (default (Build_Summary 0 0 0 ∅ ∅ ∅ 0 0 0 [] 0 [] 0 0 0 0)
       (analyze_traffic_comprehensive default_config tailgating_run))
  ≤ total_distance_records
      (default (Build_Summary 0 0 0 ∅ ∅ ∅ 0 0 0 [] 0 [] 0 0 0 0)
         (analyze_traffic_comprehensive default_config tailgating_run)).
Proof.
  refine (proj1 (report_counts_are_bounded default_config
                   tailgating_run _ _)).
  by vm_compute.
Defined.

(** X6: the tailgating flag tests the distance before rounding and the
    close-proximity count tests it after rounding, so the report can show
    more tailgating pairs than close records: in [near_threshold_run] the
    pair is flagged at 9.995... m while its record, rounded to 10.0 m, is
    not counted as close. *)
Theorem tailgating_count_can_exceed_close_count :
  ¬ (∀ cfg frames s,
       analyze_traffic_comprehensive cfg frames = Some s →
       tailgating_count s ≤ close_proximity_count s).
Proof.
  intros Hall.
  pose proof (Hall default_config near_threshold_run _ eq_refl) as Hle.
  vm_compute in Hle. by apply Hle.
Qed.

(** ** Runs without detections *)

Lemma run_no_detections_tailgating cfg frames :
  Forall (λ f : Frame, f = []) frames →
  tailgating_flagged (run cfg frames) = ∅.
Proof.
  intros Hall. apply set_eq. intros p.
  rewrite run_tailgating_flagged. split; [|set_solver].
  intros (f0 & Hf0 & Hp). rewrite Forall_forall in Hall.
  rewrite (Hall f0 Hf0) in Hp. by apply elem_of_nil in Hp.
Qed.

Lemma concat_no_detections (frames : list Frame) :
  Forall (λ f : Frame, f = []) frames → concat frames = [].
Proof. induction 1 as [|f frames -> _ IH]; [done|]. by simpl. Qed.

(** X7: a run in which no frame has a detection only counts frames: the
    report gives the number of frames, a histogram holding nothing but
    [total_unique_vehicles = 0], empty directional counters, no violation,
    no distance record and no platoon sample. *)
Theorem report_of_run_without_detections (cfg : Config)
    (frames : list Frame) (s : Summary) :
  Forall (λ f : Frame, f = []) frames →
  analyze_traffic_comprehensive cfg frames = Some s →
  total_frames s = Z.of_nat (length frames)
  ∧ unique_vehicles s = {[total_key := 0]}
  ∧ downward s = ∅ ∧ upward s = ∅
  ∧ total_downward s = 0 ∧ total_upward s = 0
  ∧ hard_braking_count s = 0 ∧ tailgating_count s = 0
  ∧ total_distance_records s = 0 ∧ close_proximity_count s = 0
  ∧ platoon_frames s = 0
  ∧ avg_platoon_speed_kmh s = PrimFloat.zero.
Proof.
  intros Hall. unfold analyze_traffic_comprehensive, build_summary. intros Hs.
  destruct (PyFloat.truediv _ _); [|done]. simplify_eq/=.
  pose proof (run_track cfg frames) as Hpart.
  rewrite (concat_no_detections frames Hall) in Hpart.
  apply (f_equal vehicles_seen) in Hpart as Hseen.
  apply (f_equal braking_flagged) in Hpart as Hbrk.
  apply (f_equal count_red_to_blue) in Hpart as Hdown.
  apply (f_equal count_blue_to_red) in Hpart as Hup.
  simpl in Hseen, Hbrk, Hdown, Hup.
  rewrite Hseen, Hbrk, Hdown, Hup, run_frame_no.
  rewrite (run_no_detections_tailgating cfg frames Hall).
  assert (length (distance_records (run cfg frames)) = 0%nat
          ∧ length (platoon_speeds (run cfg frames)) = 0%nat)
    as [Hrec Hps].
  { rewrite distance_records_length, platoon_speeds_length.
    clear -Hall. induction Hall as [|f0 frames0 -> _ [IH1 IH2]]; [done|].
    split; [by simpl|]. by rewrite filter_cons. }
  destruct (distance_records (run cfg frames)); [|done].
  destruct (platoon_speeds (run cfg frames)); [|done].
  repeat split.
Qed.

Lemma report_of_run_without_detections_witness :
  total_frames
    (default (Build_Summary 0 0 0 ∅ ∅ ∅ 0 0 0 [] 0 [] 0 0 0 0)
       (analyze_traffic_comprehensive default_config [[]; []; []]))
  = Z.of_nat (length [[]; []; [] : Frame]).
Proof.
  refine (proj1 (report_of_run_without_detections default_config
                   [[]; []; []] _ _ _)).
  - by repeat constructor.
  - by vm_compute.
Defined.

(** * Properties of the consumers of the report *)

(** ** The traffic score *)

Lemma fold_add_class_score_weighted items acc :
  fold_left add_class_score items acc
  = fold_left add_class_score (filter weighted items) acc.
Proof.
  revert acc. induction items as [|item items IH]; intros acc; [done|].
  rewrite filter_cons. simpl. unfold weighted at 1.
  destruct (decide (is_Some (CLASS_WEIGHTS !! item.1))) as [Hw|Hw].
  - simpl. apply IH.
  - rewrite IH. f_equal. unfold add_class_score.
    by destruct (CLASS_WEIGHTS !! item.1); [destruct Hw|].
Qed.

(** X8: the traffic score only reads the classes that have a weight
    (ambulance, bus, truck, car, bike): every other entry of the dictionary
    is skipped, among them the [total_unique_vehicles] entry the report adds
    to its histogram; a dictionary without a weighted class scores 0. *)
Theorem traffic_score_skips_unweighted_classes
    (vehicle_counts : list (string * Z)) :
  calculate_traffic_score vehicle_counts
  = calculate_traffic_score (filter weighted vehicle_counts)
  ∧ (∀ n, ¬ weighted (total_key, n))
  ∧ (Forall (λ item, ¬ weighted item) vehicle_counts →
       calculate_traffic_score vehicle_counts = PrimFloat.zero).
Proof.
  split; [|split].
  - unfold calculate_traffic_score.
    by rewrite fold_add_class_score_weighted.
  - intros n [w Hw]. by vm_compute in Hw.
  - intros Hnone. unfold calculate_traffic_score.
    rewrite fold_add_class_score_weighted.
    assert (filter weighted vehicle_counts = []) as ->; [|by vm_compute].
    induction Hnone as [|item items Hitem _ IH]; [done|].
    by rewrite filter_cons, decide_False.
Qed.

Lemma traffic_score_skips_unweighted_classes_witness :
  calculate_traffic_score [("person"%string, 4); (total_key, 4)]
  = PrimFloat.zero.
Proof.
  refine (proj2 (proj2 (traffic_score_skips_unweighted_classes
                          [("person"%string, 4); (total_key, 4)])) _).
  repeat constructor; intros [w Hw]; by vm_compute in Hw.
Defined.

(** ** Totals of a dictionary *)

Lemma sum_items_acc items acc :
  fold_left (λ a (item : string * Z), a + item.2) items acc
  = acc + sum_items items.
Proof.
  unfold sum_items. revert acc.
  induction items as [|item items IH]; intros acc; simpl; [lia|].
  rewrite IH, (IH (0 + item.2)). lia.
Qed.

Lemma sum_items_cons item items :
  sum_items (item :: items) = item.2 + sum_items items.
Proof. unfold sum_items at 1. simpl. rewrite sum_items_acc. lia. Qed.

Lemma sum_items_app l1 l2 :
  sum_items (l1 ++ l2) = sum_items l1 + sum_items l2.
Proof.
  induction l1 as [|item l1 IH]; [done|].
  simpl. rewrite !sum_items_cons, IH. lia.
Qed.

(** The sum over the items of a dictionary is the sum of its values. *)
Lemma sum_items_of d items :
  items_of d items → sum_items items = sum_values d.
Proof.
  intros [Hnd <-]. induction items as [|[k v] items IH]; [done|].
  apply NoDup_cons in Hnd as [Hk Hnd].
  rewrite sum_items_cons. simpl.
  rewrite sum_values_insert by (by apply not_elem_of_list_to_map_1).
  by rewrite IH.
Qed.

(** ** Signal metrics *)

(** X9: for a report of the analysis, the [total_vehicles] of the signal
    metrics is the sum of all values of the histogram, and the histogram
    holds the number of distinct vehicles a second time under
    [total_unique_vehicles]: the total is twice the number of distinct
    vehicles (less the vehicles whose class is itself named
    [total_unique_vehicles], if any), and the rows and clearance time are
    those of a queue of that length. *)
Theorem signal_total_counts_vehicles_twice (cfg : Config)
    (frames : list Frame) (s : Summary) (items : list (string * Z))
    (lanes : Z) (platoon_weight distance_m avg_speed_m_s : float)
    (m : SignalMetrics) :
  analyze_traffic_comprehensive cfg frames = Some s →
  items_of (unique_vehicles s) items →
  calculate_signal_metrics (view_of s items) lanes platoon_weight distance_m
    avg_speed_m_s = Some m →
  let n := Z.of_nat (size (seen_ids (concat frames))) in
  sm_total_vehicles m
  = 2 * n - Z.of_nat (size (ids_of_class cfg (concat frames) total_key))
  ∧ (Forall (λ d, class_list cfg (class_idx d) ≠ total_key) (concat frames) →
       sm_total_vehicles m = 2 * n)
  ∧ (sm_T_clear_seconds m, sm_total_rows m)
    = total_clear_time_and_rows (sm_total_vehicles m) lanes.
Proof.
  intros Hs Hitems Hm n.
  assert (sm_total_vehicles m = sum_items items
          ∧ (sm_T_clear_seconds m, sm_total_rows m)
            = total_clear_time_and_rows (sum_items items) lanes)
    as [Htot Hrows].
  { unfold calculate_signal_metrics in Hm. simpl in Hm.
    destruct (total_clear_time_and_rows (sum_items items) lanes)
      as [total_time total_rows].
    destruct (calculate_green_wave_bonus _ _ _); [|done].
    by simplify_eq/=. }
  rewrite <- Htot in Hrows.
  assert (sm_total_vehicles m
          = 2 * n - Z.of_nat (size (ids_of_class cfg (concat frames) total_key)))
    as Hformula.
  { rewrite Htot, (sum_items_of _ _ Hitems).
    unfold analyze_traffic_comprehensive, build_summary in Hs.
    destruct (PyFloat.truediv _ _); [|done]. simplify_eq/=.
    rewrite run_vehicles_seen. apply vehicle_counts_sum. }
  split; [done|]. split; [|done].
  intros Hclass. rewrite Hformula.
  assert (ids_of_class cfg (concat frames) total_key = ∅) as ->;
    [|rewrite size_empty; lia].
  apply set_eq. intros id. split; [|set_solver].
  unfold ids_of_class. rewrite elem_of_filter. intros [Hlast _].
  unfold last_class in Hlast.
  destruct (last_seen id (concat frames)) as [d|] eqn:Hd; [|done].
  apply last_seen_some in Hd as (h1 & h2 & Heq & _).
  rewrite Forall_forall in Hclass. simplify_eq/=.
  destruct (Hclass d); [rewrite Heq; set_solver|done].
Qed.

Lemma signal_total_counts_vehicles_twice_witness :
  sm_total_vehicles
    (default (Build_SignalMetrics [] 0 0 0 0 0 0 0 0 0 0)
       (calculate_signal_metrics
          (view_of
             (default (Build_Summary 0 0 0 ∅ ∅ ∅ 0 0 0 [] 0 [] 0 0 0 0)
                (analyze_traffic_comprehensive default_config
                   reappearing_run))
             [("car"%string, 2); (total_key, 2)])
          2 1 100 10))
  = 2 * Z.of_nat (size (seen_ids (concat reappearing_run))).
Proof.
  refine (proj1 (proj2 (signal_total_counts_vehicles_twice default_config
                          reappearing_run
                          (default
                             (Build_Summary 0 0 0 ∅ ∅ ∅ 0 0 0 [] 0 [] 0 0 0 0)
                             (analyze_traffic_comprehensive default_config
                                reappearing_run))
                          [("car"%string, 2); (total_key, 2)]
                          2 1 100 10 _ _ _ _)) _).
  - by vm_compute.
  - split; [|vm_compute; reflexivity]. simpl.
    repeat constructor; set_solver.
  - by vm_compute.
  - repeat constructor; by vm_compute.
Defined.

(** ** Intersection totals *)

Lemma count_for_cons c item items :
  count_for c (item :: items)
  = (if decide (item.1 = c) then item.2 else 0) + count_for c items.
Proof.
  unfold count_for. rewrite filter_cons.
  destruct (decide (item.1 = c)); [by rewrite sum_items_cons|done].
Qed.

Lemma add_counts_lookup items (m : gmap string Z) c :
  default 0 (add_counts m items !! c) = default 0 (m !! c) + count_for c items.
Proof.
  revert m. induction items as [|item items IH]; intros m.
  - unfold count_for. simpl. unfold sum_items. simpl. lia.
  - unfold add_counts in *. simpl. rewrite IH, count_for_cons, lookup_insert.
    destruct (decide (item.1 = c)) as [->|Hne]; simpl; lia.
Qed.

Lemma add_counts_sum items (m : gmap string Z) :
  sum_values (add_counts m items) = sum_values m + sum_items items.
Proof.
  revert m. induction items as [|item items IH]; intros m.
  - unfold sum_items. simpl. lia.
  - unfold add_counts in *. simpl.
    rewrite IH, sum_values_insert_any, sum_items_cons. lia.
Qed.

(** The count a dictionary's items give to a class is its entry. *)
Lemma count_for_items_of d items c :
  items_of d items → count_for c items = default 0 (d !! c).
Proof.
  intros [Hnd <-]. induction items as [|[k v] items IH].
  - unfold count_for, sum_items. by simpl.
  - apply NoDup_cons in Hnd as [Hk Hnd].
    rewrite count_for_cons. simpl. rewrite lookup_insert, (IH Hnd).
    destruct (decide (k = c)) as [->|Hne]; simpl; [|lia].
    rewrite (not_elem_of_list_to_map_1 _ _ Hk). simpl. lia.
Qed.

Lemma fold_add_counts summaries (m : gmap string Z) :
  let combined :=
    fold_left (λ acc s, add_counts acc (sv_unique_vehicles s)) summaries m in
  sum_values combined
  = sum_values m
    + sum_Z (map (λ s, sum_items (sv_unique_vehicles s)) summaries)
  ∧ ∀ c, default 0 (combined !! c)
         = default 0 (m !! c)
           + sum_Z (map (λ s, count_for c (sv_unique_vehicles s)) summaries).
Proof.
  revert m. induction summaries as [|s summaries IH]; intros m; simpl.
  - split; [lia|]. intros c. lia.
  - destruct (IH (add_counts m (sv_unique_vehicles s))) as [-> Hc].
    rewrite add_counts_sum. split; [lia|].
    intros c. rewrite Hc, add_counts_lookup. lia.
Qed.

Lemma fold_add_Z {A} (g : A → Z) (l : list A) acc :
  fold_left (λ a x, a + g x) l acc = acc + sum_Z (map g l).
Proof.
  revert acc. induction l as [|x l IH]; intros acc; simpl; [lia|].
  rewrite IH. lia.
Qed.

(** X10: the intersection-wide totals are the sums of the signals' figures:
    the combined count of a class is the sum of the counts the summaries
    give it (the dictionary entry of each), the total is the sum of the
    signals' [total_vehicles] (so it too sums every histogram with its
    [total_unique_vehicles] entry), and the two violation totals are the
    sums of the signals' counts. *)
Theorem intersection_totals_are_sums (summaries : list SummaryView) :
  let r := intersection_summary summaries in
  is_total_vehicles r
  = sum_Z (map (λ s, sum_items (sv_unique_vehicles s)) summaries)
  ∧ (∀ c, default 0 (is_vehicle_counts r !! c)
          = sum_Z (map (λ s, count_for c (sv_unique_vehicles s)) summaries))
  ∧ (∀ s d c, items_of d (sv_unique_vehicles s) →
       count_for c (sv_unique_vehicles s) = default 0 (d !! c))
  ∧ (∀ s lanes pw dist v m,
       calculate_signal_metrics s lanes pw dist v = Some m →
       sm_total_vehicles m = sum_items (sv_unique_vehicles s))
  ∧ is_hard_brakes r = sum_Z (map sv_hard_braking_count summaries)
  ∧ is_tailgating r = sum_Z (map sv_tailgating_count summaries).
Proof.
  intros r. subst r. unfold intersection_summary. simpl.
  destruct (fold_add_counts summaries ∅) as [Hsum Hc].
  split; [rewrite Hsum; by vm_compute|].
  split; [intros c; by rewrite Hc|].
  split; [intros s d c; apply count_for_items_of|].
  split; [|split; by rewrite fold_add_Z].
  intros s lanes pw dist v m Hm.
  unfold calculate_signal_metrics in Hm.
  destruct (total_clear_time_and_rows _ _).
  destruct (calculate_green_wave_bonus _ _ _); [|done]. by simplify_eq/=.
Qed.

Lemma intersection_totals_are_sums_witness :
  count_for "car" [("car"%string, 2); (total_key, 2)]
  = default 0 (({["car"%string := 2; total_key := 2]} : gmap string Z)
               !! "car"%string).
Proof.
  refine (proj1 (proj2 (proj2 (intersection_totals_are_sums [])))
            (Build_SummaryView [("car"%string, 2); (total_key, 2)] 0 0 0)
            _ "car"%string _).
  split; [|vm_compute; reflexivity]. simpl. repeat constructor; set_solver.
Defined.

(** ** The green-wave bonus *)

Lemma float_zero_cases (x : float) :
  PrimFloat.eqb x PrimFloat.zero = true →
  x = PrimFloat.zero ∨ x = PrimFloat.neg_zero.
Proof.
  intros Hx. rewrite FloatAxioms.eqb_spec in Hx.
  rewrite <- (SF2Prim_Prim2SF x).
  destruct (Prim2SF x) as [[|]|[|]| |[|] m e];
    try (by vm_compute in Hx); [by right|by left].
Qed.

Lemma div_of_zero (d v : float) :
  PrimFloat.eqb d PrimFloat.zero = true →
  PrimFloat.eqb v PrimFloat.zero = false →
  PrimFloat.is_nan v = false →
  PrimFloat.eqb (PrimFloat.div d v) PrimFloat.zero = true.
Proof.
  intros Hd Hv Hnan. unfold is_nan in Hnan.
  rewrite FloatAxioms.eqb_spec in Hv, Hnan.
  rewrite FloatAxioms.eqb_spec, div_spec.
  apply float_zero_cases in Hd as [-> | ->];
    destruct (Prim2SF v) as [[|]|[|]| |[|] m e]; by vm_compute in Hv, Hnan |- *.
Qed.

(** X11: the green-wave bonus raises ZeroDivisionError when the average
    speed is zero, and also when the distance is zero (for any speed that is
    a nonzero number): the estimated time of arrival is then zero and is
    divided by six times itself.  The signal metrics fail exactly when the
    bonus does, whatever the traffic summary. *)
Theorem green_wave_bonus_division_errors
    (platoon_weight distance_m avg_speed_m_s : float) :
  (PrimFloat.eqb avg_speed_m_s PrimFloat.zero = true →
     calculate_green_wave_bonus platoon_weight distance_m avg_speed_m_s = None)
  ∧ (PrimFloat.eqb distance_m PrimFloat.zero = true →
     PrimFloat.eqb avg_speed_m_s PrimFloat.zero = false →
     PrimFloat.is_nan avg_speed_m_s = false →
     calculate_green_wave_bonus platoon_weight distance_m avg_speed_m_s = None)
  ∧ (∀ summary lanes,
       calculate_signal_metrics summary lanes platoon_weight distance_m
         avg_speed_m_s = None
       ↔ calculate_green_wave_bonus platoon_weight distance_m avg_speed_m_s
         = None).
Proof.
  split; [|split].
  - intros Hv. unfold calculate_green_wave_bonus, PyFloat.truediv.
    by rewrite Hv.
  - intros Hd Hv Hnan. unfold calculate_green_wave_bonus, PyFloat.truediv.
    rewrite Hv.
    pose proof (div_of_zero _ _ Hd Hv Hnan) as Heta.
    apply float_zero_cases in Heta as [-> | ->]; by vm_compute.
  - intros summary lanes. unfold calculate_signal_metrics.
    destruct (total_clear_time_and_rows _ _).
    by destruct (calculate_green_wave_bonus _ _ _).
Qed.

Lemma green_wave_bonus_division_errors_witness :
  calculate_green_wave_bonus 1 0 10 = None.
Proof.
  refine (proj1 (proj2 (green_wave_bonus_division_errors 1 0 10)) _ _ _);
    reflexivity.
Defined.

(** ** The clearance time *)

Lemma forallb_seqZ (g : Z → bool) (a n z : Z) :
  forallb g (seqZ a n) = true → a ≤ z < a + n → g z = true.
Proof.
  intros Hall Hz. rewrite forallb_forall in Hall.
  apply Hall, list_elem_of_In, elem_of_seqZ. lia.
Qed.

Lemma clear_time_checked_all :
  forallb (λ lanes, forallb (λ q, clear_time_checked q lanes) (seqZ 1 1000))
    (seqZ 1 8) = true.
Proof. by vm_compute. Qed.

(** X12: a queue or a lane count that is not positive gives 0 rows and
    0 seconds.  For 1 to 1000 vehicles on 1 to 8 lanes, the number of rows
    is the least one whose rows hold the queue, the clearance time is within
    half a second of 3.8 + 3.1 + 2.7 + 2.2 s for the first four rows plus
    2.1 s for each further row, and one more vehicle never shortens it. *)
Theorem clear_time_rows_and_seconds (queue_length lanes : Z) :
  (queue_length ≤ 0 ∨ lanes ≤ 0 →
     total_clear_time_and_rows queue_length lanes = (0, 0))
  ∧ (1 ≤ queue_length ≤ 1000 → 1 ≤ lanes ≤ 8 →
     let t := (total_clear_time_and_rows queue_length lanes).1 in
     let rows := (total_clear_time_and_rows queue_length lanes).2 in
     (rows - 1) * lanes < queue_length ≤ rows * lanes
     ∧ Z.abs (10 * t - ideal_tenths rows) ≤ 5
     ∧ t ≤ (total_clear_time_and_rows (queue_length + 1) lanes).1).
Proof.
  split.
  - intros Hle. unfold total_clear_time_and_rows.
    destruct Hle as [Hq|Hl].
    + by rewrite (proj2 (Z.leb_le _ _) Hq).
    + by rewrite (proj2 (Z.leb_le _ _) Hl), orb_true_r.
  - intros Hq Hl t rows. subst t rows.
    pose proof (forallb_seqZ
                  (λ lanes, forallb (λ q, clear_time_checked q lanes)
                              (seqZ 1 1000))
                  1 8 lanes clear_time_checked_all ltac:(lia)) as Hlanes.
    cbv beta in Hlanes.
    pose proof (forallb_seqZ (λ q, clear_time_checked q lanes) 1 1000
                  queue_length Hlanes ltac:(lia)) as Hc.
    cbv beta in Hc. unfold clear_time_checked in Hc.
    destruct (total_clear_time_and_rows queue_length lanes) as [t rows].
    simpl. rewrite !andb_true_iff in Hc. lia.
Qed.

Lemma clear_time_rows_and_seconds_witness :
  (total_clear_time_and_rows 142 2).1
  ≤ (total_clear_time_and_rows (142 + 1) 2).1.
Proof.
  refine (proj2 (proj2 (proj2 (clear_time_rows_and_seconds 142 2) _ _)));
    lia.
Defined.

(** ** The flagged pairs of the report *)

Lemma pairs_elem_of {A} (l : list A) (x y : A) :
  (x, y) ∈ pairs l → x ∈ l ∧ y ∈ l.
Proof.
  induction l as [|a l IH]; simpl; [by intros ?%elem_of_nil|].
  rewrite elem_of_app, list_elem_of_fmap.
  intros [(b & [= -> ->] & Hb)|Hxy]; [set_solver|].
  destruct (IH Hxy). set_solver.
Qed.

(** X13: every pair in the report's [tailgating_pairs] is listed smaller id
    first, and its two ids are the track ids of two rows of one frame that
    were closer than [tailgating_thresh] there. *)
Theorem tailgating_pairs_are_sorted_and_seen (cfg : Config)
    (frames : list Frame) (s : Summary) (p : Z * Z) :
  analyze_traffic_comprehensive cfg frames = Some s →
  p ∈ tailgating_pairs s →
  p.1 ≤ p.2
  ∧ ∃ f a b, f ∈ frames ∧ a ∈ f ∧ b ∈ f ∧ close cfg a b = true
             ∧ p = sorted_pair (track_id a) (track_id b).
Proof.
  unfold analyze_traffic_comprehensive, build_summary. intros Hs.
  destruct (PyFloat.truediv _ _); [|done]. simplify_eq/=.
  rewrite elem_of_elements, run_tailgating_flagged.
  intros (f0 & Hf & Hp). unfold close_pairs in Hp.
  apply list_elem_of_fmap in Hp as ([a b] & -> & Hab).
  apply list_elem_of_filter in Hab as [Hclose Hab]. simpl in *.
  apply pairs_elem_of in Hab as [Ha Hb].
  split; [unfold sorted_pair; simpl; lia|]. by exists f0, a, b.
Qed.

Lemma tailgating_pairs_are_sorted_and_seen_witness :
  (3, 5).1 ≤ (3, 5).2
  ∧ ∃ f a b, f ∈ tailgating_run ∧ a ∈ f ∧ b ∈ f
             ∧ close default_config a b = true
             ∧ (3, 5) = sorted_pair (track_id a) (track_id b).
Proof.
  refine (tailgating_pairs_are_sorted_and_seen default_config tailgating_run
            (default (Build_Summary 0 0 0 ∅ ∅ ∅ 0 0 0 [] 0 [] 0 0 0 0)
               (analyze_traffic_comprehensive default_config tailgating_run))
            (3, 5) _ _).
  - by vm_compute.
  - vm_compute. constructor.
Defined.
